(** * SFBAudioEngine: the decoder registry, resolver and lifecycle

    A shallow embedding of [Decoders/AudioDecoder.cpp]
    (namespace [SFB::Audio], class [Decoder]), and of [MP3Metadata.cpp].

    Conventions of the embedding:
    - a [CFStringRef] that may be [nullptr] is an [option string];
    - the out-parameter [CFErrorRef *error] is an [ErrorOut]: [None] when
      the caller passed [nullptr], [Some slot] otherwise, where [slot] is the
      current content of the caller's variable;
    - [std::unique_ptr<T>] that may be empty is an [option T]; a [std::move]
      is a plain value hand-over;
    - every call that leaves the base class (a virtual hook of the concrete
      decoder, a call on the input source, a query of a registered subclass,
      a log line) is recorded in a trace of [Event]s, so that statements such
      as "no hook is invoked" can be made and proved. *)

From Stdlib Require Import List String Ascii ZArith Bool Arith Lia Permutation.
Import ListNotations.

Set Implicit Arguments.

(** ** Strings *)

Definition CFStringRef : Type := option string.

(** Modelled from the spec: [CFStringCompare] with
    [kCFCompareCaseInsensitive] belongs to CoreFoundation; it is taken here
    on ASCII letters, by folding both sides to lower case. *)
Definition lowerAscii (c : ascii) : ascii :=
  let n := nat_of_ascii c in
  if (65 <=? n)%nat && (n <=? 90)%nat then ascii_of_nat (n + 32) else c.

Fixpoint lowerString (s : string) : string :=
  match s with
  | EmptyString => EmptyString
  | String c rest => String (lowerAscii c) (lowerString rest)
  end.

Definition caseInsensitiveEqual (a b : string) : bool :=
  String.eqb (lowerString a) (lowerString b).

(** The shape of every subclass's [HandlesFilesWithExtension] and
    [HandlesMIMEType] (see [MP3Metadata::HandlesFilesWithExtension]):
    [nullptr] is rejected, then the argument is compared, ignoring case,
    with each name the subclass knows. *)
Definition handlesAnyOf (names : list string) (s : CFStringRef) : bool :=
  match s with
  | None => false
  | Some x => existsb (caseInsensitiveEqual x) names
  end.

(** ** Traces *)

Inductive LogLevel : Type := LogInfo | LogWarning.

Inductive HookCall : Type :=
| HOpen
| HClose
| HReadAudio (frameCount : Z)
| HGetTotalFrames
| HGetCurrentFrame
| HSupportsSeeking
| HSeekToFrame (frame : Z).

Inductive Event : Type :=
| EvLog (level : LogLevel) (message : string)
| EvSourceOpen
| EvSourceClose
| EvHook (h : HookCall)
| EvHandlesMIMEType (i : nat)
| EvHandlesFilesWithExtension (i : nat)
| EvCreateDecoder (i : nat).

Definition isHook (e : Event) : bool :=
  match e with EvHook _ => true | _ => false end.

Definition isSeekHook (e : Event) : bool :=
  match e with EvHook (HSeekToFrame _) => true | _ => false end.

Definition isMIMEQuery (e : Event) : bool :=
  match e with EvHandlesMIMEType _ => true | _ => false end.

Definition isExtensionQuery (e : Event) : bool :=
  match e with EvHandlesFilesWithExtension _ => true | _ => false end.

Definition isRegistryEvent (e : Event) : bool :=
  match e with
  | EvHandlesMIMEType _ | EvHandlesFilesWithExtension _ | EvCreateDecoder _ => true
  | _ => false
  end.

Definition isSourceClose (e : Event) : bool :=
  match e with EvSourceClose => true | _ => false end.

(** A class of events [P] that contains neither log lines, nor the opening of
    the source, nor the open hook; no such event occurs while a decoder
    opens. *)
Definition avoidsOpening (P : Event -> bool) : Prop :=
  (forall level message, P (EvLog level message) = false) /\
  P EvSourceOpen = false /\
  P (EvHook HOpen) = false.

(** A computation that returns a value together with the calls it made. *)
Definition Traced (A : Type) : Type := (A * list Event)%type.

Definition ret {A : Type} (a : A) : Traced A := (a, []).

Definition bind {A B : Type} (m : Traced A) (f : A -> Traced B) : Traced B :=
  let (a, t) := m in
  let (b, t') := f a in
  (b, t ++ t').

Definition emit (e : Event) : Traced unit := (tt, [e]).

Definition value {A : Type} (m : Traced A) : A := fst m.
Definition trace {A : Type} (m : Traced A) : list Event := snd m.

Declare Scope traced_scope.
Delimit Scope traced_scope with traced.
Notation "x <- m ;; k" := (bind m (fun x => k))
  (at level 61, m at next level, right associativity) : traced_scope.
Notation "' p <- m ;; k" := (bind m (fun x => let 'p := x in k))
  (at level 61, p pattern, m at next level, right associativity) : traced_scope.
Notation "m ;;; k" := (bind m (fun _ => k))
  (at level 61, right associativity) : traced_scope.
Local Open Scope traced_scope.

(** ** Errors *)

Section Errors.

Variable CFURL : Type.

Record CFError : Type := {
  errDomain : string;
  errCode : Z;
  errDescription : string;
  errURL : option CFURL;
  errFailureReason : string;
  errRecoverySuggestion : string
}.

(** [CFErrorRef *error]. *)
Definition ErrorOut : Type := option (option CFError).

(** [if(error) *error = e;] *)
Definition storeError (error : ErrorOut) (e : CFError) : ErrorOut :=
  match error with
  | None => None
  | Some _ => Some (Some e)
  end.

(** Modelled from the spec: [CreateErrorForURL] of [CFErrorUtilities.h]
    builds the (domain, code, description, reason, suggestion) value for a
    locator. *)
Definition CreateErrorForURL (domain : string) (code : Z) (description : string)
    (url : CFURL) (failureReason recoverySuggestion : string) : CFError :=
  {| errDomain := domain; errCode := code; errDescription := description;
     errURL := Some url; errFailureReason := failureReason;
     errRecoverySuggestion := recoverySuggestion |}.

End Errors.

(** ** The collaborators of the base class *)

(** The part of [InputSource] that [AudioDecoder.cpp] calls.  [Open] and
    [Close] return their result, the source as they leave it, and the error
    out-parameter as they leave it. *)
Class InputSourceOps (CFURL InputSource : Type) : Type := {
  InputSource_IsOpen : InputSource -> bool;
  InputSource_Open : InputSource -> ErrorOut CFURL -> bool * InputSource * ErrorOut CFURL;
  InputSource_Close : InputSource -> ErrorOut CFURL -> bool * InputSource * ErrorOut CFURL;
  InputSource_GetURL : InputSource -> option CFURL;
  InputSource_CreateInputSourceForURL :
    CFURL -> Z -> ErrorOut CFURL -> option InputSource * ErrorOut CFURL;
  InputSource_ErrorDomain : string;
  InputSource_FileNotFoundError : Z;
  CFURLCopyPathExtension : CFURL -> CFStringRef
}.

(** The private virtual functions every concrete decoder implements
    ([_Open], [_Close], ... in [WavPackDecoder.h]).  [Impl] is the state the
    subclass adds; a hook sees it and the protected [mInputSource], never the
    private [mIsOpen]. *)
Class DecoderHooks (CFURL InputSource Impl AudioBufferList : Type) : Type := {
  _Open : Impl -> InputSource -> ErrorOut CFURL -> bool * Impl * InputSource * ErrorOut CFURL;
  _Close : Impl -> InputSource -> ErrorOut CFURL -> bool * Impl * InputSource * ErrorOut CFURL;
  _ReadAudio : Impl -> InputSource -> AudioBufferList -> Z ->
               Z * Impl * InputSource * AudioBufferList;
  _GetTotalFrames : Impl -> InputSource -> Z;
  _GetCurrentFrame : Impl -> InputSource -> Z;
  _SupportsSeeking : Impl -> InputSource -> bool;
  _SeekToFrame : Impl -> InputSource -> Z -> Z * Impl * InputSource
}.

(** ** The base class [SFB::Audio::Decoder] *)

Section Model.

Context {CFURL InputSource Impl AudioBufferList : Type}.
Context {sourceOps : InputSourceOps CFURL InputSource}.
Context {hooks : DecoderHooks CFURL InputSource Impl AudioBufferList}.

Local Abbreviation ErrorOut := (ErrorOut CFURL).

(** The data members the lifecycle uses.  [mInputSource] is owned by the
    decoder and is not null from construction on ([assert] in the
    constructor); the formats and the channel layout are written by the
    hooks only and travel inside [mImpl]. *)
Record Decoder : Type := {
  mInputSource : InputSource;
  mIsOpen : bool;
  mImpl : Impl
}.

(** [Decoder::Decoder(InputSource::unique_ptr inputSource)], called by the
    constructor of every concrete decoder. *)
Definition Decoder_ctor (inputSource : InputSource) (impl : Impl) : Decoder :=
  {| mInputSource := inputSource; mIsOpen := false; mImpl := impl |}.

Definition IsOpen (d : Decoder) : bool := mIsOpen d.

Definition logInfo (message : string) : Traced unit := emit (EvLog LogInfo message).
Definition logWarning (message : string) : Traced unit := emit (EvLog LogWarning message).

(** [!GetInputSource().IsOpen() && !GetInputSource().Open(error)]: the
    source is opened only when it is not open yet; the boolean is [true]
    when the source is open afterwards. *)
Definition ensureSourceOpen (inputSource : InputSource) (error : ErrorOut)
  : Traced (bool * InputSource * ErrorOut) :=
  if InputSource_IsOpen inputSource then ret (true, inputSource, error)
  else emit EvSourceOpen ;;; ret (InputSource_Open inputSource error).

(** [bool Decoder::Open(CFErrorRef *error)] *)
Definition Open (d : Decoder) (error : ErrorOut) : Traced (bool * Decoder * ErrorOut) :=
  if IsOpen d then
    logInfo "Open() called on a Decoder that is already open" ;;;
    ret (true, d, error)
  else
    '(opened, inputSource, error) <- ensureSourceOpen (mInputSource d) error ;;
    if negb opened then
      ret (false, {| mInputSource := inputSource; mIsOpen := mIsOpen d; mImpl := mImpl d |}, error)
    else
      emit (EvHook HOpen) ;;;
      let '(result, impl, inputSource, error) := _Open (mImpl d) inputSource error in
      ret (result,
           {| mInputSource := inputSource;
              mIsOpen := if result then true else mIsOpen d;
              mImpl := impl |},
           error).

(** [bool Decoder::Close(CFErrorRef *error)] *)
Definition Close (d : Decoder) (error : ErrorOut) : Traced (bool * Decoder * ErrorOut) :=
  if negb (IsOpen d) then
    logInfo "Close() called on a Decoder that hasn't been opened" ;;;
    ret (true, d, error)
  else
    emit (EvHook HClose) ;;;
    let '(result, impl, inputSource, error) := _Close (mImpl d) (mInputSource d) error in
    let isOpen := if result then false else mIsOpen d in
    emit EvSourceClose ;;;
    let '(closed, inputSource, error) := InputSource_Close inputSource error in
    let d' := {| mInputSource := inputSource; mIsOpen := isOpen; mImpl := impl |} in
    if negb closed then ret (false, d', error)
    else ret (result, d', error).

(** [UInt32 Decoder::ReadAudio(AudioBufferList *bufferList, UInt32 frameCount)];
    a null [bufferList] is [None]. *)
Definition ReadAudio (d : Decoder) (bufferList : option AudioBufferList) (frameCount : Z)
  : Traced (Z * Decoder * option AudioBufferList) :=
  if negb (IsOpen d) then
    logInfo "ReadAudio() called on a Decoder that hasn't been opened" ;;;
    ret (0%Z, d, bufferList)
  else
    match bufferList with
    | None =>
        logWarning "ReadAudio() called with invalid parameters" ;;;
        ret (0%Z, d, bufferList)
    | Some buffer =>
        if (frameCount =? 0)%Z then
          logWarning "ReadAudio() called with invalid parameters" ;;;
          ret (0%Z, d, bufferList)
        else
          emit (EvHook (HReadAudio frameCount)) ;;;
          let '(framesRead, impl, inputSource, buffer) :=
            _ReadAudio (mImpl d) (mInputSource d) buffer frameCount in
          ret (framesRead,
               {| mInputSource := inputSource; mIsOpen := mIsOpen d; mImpl := impl |},
               Some buffer)
    end.

(** [SInt64 Decoder::GetTotalFrames() const] *)
Definition GetTotalFrames (d : Decoder) : Traced Z :=
  if negb (IsOpen d) then
    logInfo "GetTotalFrames() called on a Decoder that hasn't been opened" ;;;
    ret (-1)%Z
  else
    emit (EvHook HGetTotalFrames) ;;;
    ret (_GetTotalFrames (mImpl d) (mInputSource d)).

(** [SInt64 Decoder::GetCurrentFrame() const] *)
Definition GetCurrentFrame (d : Decoder) : Traced Z :=
  if negb (IsOpen d) then
    logInfo "GetCurrentFrame() called on a Decoder that hasn't been opened" ;;;
    ret (-1)%Z
  else
    emit (EvHook HGetCurrentFrame) ;;;
    ret (_GetCurrentFrame (mImpl d) (mInputSource d)).

(** [bool Decoder::SupportsSeeking() const] *)
Definition SupportsSeeking (d : Decoder) : Traced bool :=
  if negb (IsOpen d) then
    logInfo "SupportsSeeking() called on a Decoder that hasn't been opened" ;;;
    ret false
  else
    emit (EvHook HSupportsSeeking) ;;;
    ret (_SupportsSeeking (mImpl d) (mInputSource d)).

(** [SInt64 Decoder::SeekToFrame(SInt64 frame)].  In [0 > frame || frame >=
    GetTotalFrames()] the right operand is evaluated only when the left one
    is false. *)
Definition SeekToFrame (d : Decoder) (frame : Z) : Traced (Z * Decoder) :=
  if negb (IsOpen d) then
    logInfo "SeekToFrame() called on a Decoder that hasn't been opened" ;;;
    ret ((-1)%Z, d)
  else
    invalid <- (if (0 >? frame)%Z then ret true
                else totalFrames <- GetTotalFrames d ;; ret (frame >=? totalFrames)%Z) ;;
    if (invalid : bool) then
      logWarning "SeekToFrame() called with invalid parameters" ;;;
      ret ((-1)%Z, d)
    else
      emit (EvHook (HSeekToFrame frame)) ;;;
      let '(result, impl, inputSource) := _SeekToFrame (mImpl d) (mInputSource d) frame in
      ret (result, {| mInputSource := inputSource; mIsOpen := mIsOpen d; mImpl := impl |}).

(** ** The registry of subclasses *)

(** [Decoder::SubclassInfo]: the static member functions a subclass hands
    over when it registers. *)
Record SubclassInfo : Type := {
  mCreateSupportedFileExtensions : list string;
  mCreateSupportedMIMETypes : list string;
  mHandlesFilesWithExtension : CFStringRef -> bool;
  mHandlesMIMEType : CFStringRef -> bool;
  mCreateDecoder : InputSource -> Decoder
}.

(** The two static data members of [Decoder]. *)
Variable sRegisteredSubclasses : list SubclassInfo.
Variable sAutomaticallyOpenDecoders : bool.

Definition AutomaticallyOpenDecoders : bool := sAutomaticallyOpenDecoders.

(** [CFArrayRef Decoder::CreateSupportedFileExtensions()] *)
Definition CreateSupportedFileExtensions : list string :=
  flat_map mCreateSupportedFileExtensions sRegisteredSubclasses.

(** [CFArrayRef Decoder::CreateSupportedMIMETypes()] *)
Definition CreateSupportedMIMETypes : list string :=
  flat_map mCreateSupportedMIMETypes sRegisteredSubclasses.

(** [for(auto subclassInfo : ...) { if(handles(subclassInfo)) return true; }
    return false;], the subclass at position [i] coming first. *)
Fixpoint anySubclassHandles (handles : SubclassInfo -> bool) (query : nat -> Event)
    (subclasses : list SubclassInfo) (i : nat) : Traced bool :=
  match subclasses with
  | [] => ret false
  | subclassInfo :: rest =>
      emit (query i) ;;;
      if handles subclassInfo then ret true
      else anySubclassHandles handles query rest (S i)
  end.

(** [bool Decoder::HandlesFilesWithExtension(CFStringRef extension)] *)
Definition HandlesFilesWithExtension (extension : CFStringRef) : Traced bool :=
  match extension with
  | None => ret false
  | Some _ =>
      anySubclassHandles (fun subclassInfo => mHandlesFilesWithExtension subclassInfo extension)
                         EvHandlesFilesWithExtension sRegisteredSubclasses 0
  end.

(** [bool Decoder::HandlesMIMEType(CFStringRef mimeType)] *)
Definition HandlesMIMEType (mimeType : CFStringRef) : Traced bool :=
  match mimeType with
  | None => ret false
  | Some _ =>
      anySubclassHandles (fun subclassInfo => mHandlesMIMEType subclassInfo mimeType)
                         EvHandlesMIMEType sRegisteredSubclasses 0
  end.

(** ** The resolver *)

(** The loop that both phases of [CreateDecoderForInputSource] run over the
    registered subclasses:
<<
    for(auto subclassInfo : sRegisteredSubclasses) {
        if(handles(subclassInfo)) {
            unique_ptr decoder(subclassInfo.mCreateDecoder(std::move(inputSource)));
            if(!AutomaticallyOpenDecoders())
                return decoder;
            else {
                if(decoder->Open(error))
                    return decoder;
                else
                    inputSource = std::move(decoder->mInputSource);
            }
        }
    }
>>
    [inl decoder] is the [return decoder] inside the loop; [inr inputSource]
    is the loop running to its end, with the source the resolver then
    holds. *)
Fixpoint trySubclasses (handles : SubclassInfo -> bool) (query : nat -> Event)
    (subclasses : list SubclassInfo) (i : nat)
    (inputSource : InputSource) (error : ErrorOut)
  : Traced ((Decoder + InputSource) * ErrorOut) :=
  match subclasses with
  | [] => ret (inr inputSource, error)
  | subclassInfo :: rest =>
      emit (query i) ;;;
      if handles subclassInfo then
        emit (EvCreateDecoder i) ;;;
        let decoder := mCreateDecoder subclassInfo inputSource in
        if negb AutomaticallyOpenDecoders then ret (inl decoder, error)
        else
          '(opened, decoder, error) <- Open decoder error ;;
          if (opened : bool) then ret (inl decoder, error)
          else trySubclasses handles query rest (S i) (mInputSource decoder) error
      else trySubclasses handles query rest (S i) inputSource error
  end.

(** The loop of lines 140-153, over [mHandlesMIMEType]. *)
Definition tryMIMEType (mimeType : CFStringRef) (inputSource : InputSource) (error : ErrorOut)
  : Traced ((Decoder + InputSource) * ErrorOut) :=
  trySubclasses (fun subclassInfo => mHandlesMIMEType subclassInfo mimeType)
                EvHandlesMIMEType sRegisteredSubclasses 0 inputSource error.

(** The loop of lines 184-197, over [mHandlesFilesWithExtension]. *)
Definition tryExtension (pathExtension : CFStringRef) (inputSource : InputSource)
    (error : ErrorOut) : Traced ((Decoder + InputSource) * ErrorOut) :=
  trySubclasses (fun subclassInfo => mHandlesFilesWithExtension subclassInfo pathExtension)
                EvHandlesFilesWithExtension sRegisteredSubclasses 0 inputSource error.

(** The error built at lines 170-174. *)
Definition unknownFileTypeError (inputURL : CFURL) : CFError CFURL :=
  CreateErrorForURL InputSource_ErrorDomain InputSource_FileNotFoundError
    "The type of the file “%@” could not be determined."
    inputURL
    "Unknown file type"
    "The file's extension may be missing or may not match the file's type.".

(** Lines 163-199 of [CreateDecoderForInputSource]: the resolution by path
    extension, entered with the source the resolver holds at that point. *)
Definition resolveByExtension (inputSource : InputSource) (error : ErrorOut)
  : Traced (option Decoder * ErrorOut) :=
  match InputSource_GetURL inputSource with
  | None => ret (None, error)
  | Some inputURL =>
      match CFURLCopyPathExtension inputURL with
      | None => ret (None, storeError error (unknownFileTypeError inputURL))
      | Some pathExtension =>
          '(found, error) <- tryExtension (Some pathExtension) inputSource error ;;
          match found with
          | inl decoder => ret (Some decoder, error)
          | inr _ => ret (None, error)
          end
      end
  end.

(** Line 123, [AutomaticallyOpenDecoders() && !inputSource->IsOpen() &&
    !inputSource->Open(error)], read the other way round: the boolean is
    [false] exactly when that condition holds and the resolver gives up. *)
Definition openSourceIfAutomatic (inputSource : InputSource) (error : ErrorOut)
  : Traced (bool * InputSource * ErrorOut) :=
  if AutomaticallyOpenDecoders then ensureSourceOpen inputSource error
  else ret (true, inputSource, error).

(** [Decoder::unique_ptr Decoder::CreateDecoderForInputSource(
       InputSource::unique_ptr inputSource, CFStringRef mimeType, CFErrorRef *error)] *)
Definition CreateDecoderForInputSource (inputSource : option InputSource)
    (mimeType : CFStringRef) (error : ErrorOut) : Traced (option Decoder * ErrorOut) :=
  match inputSource with
  | None => ret (None, error)
  | Some inputSource =>
      (* Open the input source if it isn't already *)
      '(opened, inputSource, error) <- openSourceIfAutomatic inputSource error ;;
      if negb opened then ret (None, error)
      else
        (* The MIME type takes precedence over the file extension *)
        '(found, error) <-
          match mimeType with
          | Some _ => tryMIMEType mimeType inputSource error
          | None => ret (inr inputSource, error)
          end ;;
        match found with
        | inl decoder => ret (Some decoder, error)
        | inr inputSource => resolveByExtension inputSource error
        end
  end.

(** [CreateDecoderForInputSource(InputSource::unique_ptr inputSource,
    CFErrorRef *error)], the overload without a MIME type. *)
Definition CreateDecoderForInputSource_2 (inputSource : option InputSource) (error : ErrorOut)
  : Traced (option Decoder * ErrorOut) :=
  CreateDecoderForInputSource inputSource None error.

(** [CreateDecoderForURL(CFURLRef url, CFStringRef mimeType, CFErrorRef *error)];
    the source is created first and may itself write the error. *)
Definition CreateDecoderForURL (url : CFURL) (mimeType : CFStringRef) (error : ErrorOut)
  : Traced (option Decoder * ErrorOut) :=
  let '(inputSource, error) := InputSource_CreateInputSourceForURL url 0%Z error in
  CreateDecoderForInputSource inputSource mimeType error.

(** [CreateDecoderForURL(CFURLRef url, CFErrorRef *error)] *)
Definition CreateDecoderForURL_2 (url : CFURL) (error : ErrorOut)
  : Traced (option Decoder * ErrorOut) :=
  CreateDecoderForURL url None error.

(** ** Region decoders *)

(** What a [Decoder::unique_ptr] can point to: a decoder made by a registered
    subclass, or a [LoopableRegionDecoder] around another decoder.

    Modelled from the spec: [LoopableRegionDecoder.h] is not part of the
    sources at hand, only the three calls of its constructors are; each
    constructor is kept as the record of its arguments (the wrapped decoder,
    the starting frame, and the frame count and repeat count when given). *)
Inductive DecoderObject : Type :=
| ConcreteDecoder (decoder : Decoder)
| LoopableRegionDecoder_1 (decoder : DecoderObject) (startingFrame : Z)
| LoopableRegionDecoder_2 (decoder : DecoderObject) (startingFrame : Z) (frameCount : Z)
| LoopableRegionDecoder_3 (decoder : DecoderObject) (startingFrame : Z) (frameCount : Z)
                          (repeatCount : Z).

(** [CreateDecoderForDecoderRegion(Decoder::unique_ptr decoder,
    SInt64 startingFrame, CFErrorRef *error)]; the error parameter is unnamed there and unused. *)
Definition CreateDecoderForDecoderRegion_1 (decoder : option DecoderObject)
    (startingFrame : Z) (error : ErrorOut) : Traced (option DecoderObject * ErrorOut) :=
  match decoder with
  | None => ret (None, error)
  | Some decoder => ret (Some (LoopableRegionDecoder_1 decoder startingFrame), error)
  end.

(** [CreateDecoderForDecoderRegion(Decoder::unique_ptr decoder,
    SInt64 startingFrame, UInt32 frameCount, CFErrorRef *error)]; the error parameter is unnamed there and unused. *)
Definition CreateDecoderForDecoderRegion_2 (decoder : option DecoderObject)
    (startingFrame frameCount : Z) (error : ErrorOut)
  : Traced (option DecoderObject * ErrorOut) :=
  match decoder with
  | None => ret (None, error)
  | Some decoder => ret (Some (LoopableRegionDecoder_2 decoder startingFrame frameCount), error)
  end.

(** [CreateDecoderForDecoderRegion(Decoder::unique_ptr decoder,
    SInt64 startingFrame, UInt32 frameCount, UInt32 repeatCount, CFErrorRef *error)]; the error parameter is unnamed there and unused. *)
Definition CreateDecoderForDecoderRegion_3 (decoder : option DecoderObject)
    (startingFrame frameCount repeatCount : Z) (error : ErrorOut)
  : Traced (option DecoderObject * ErrorOut) :=
  match decoder with
  | None => ret (None, error)
  | Some decoder =>
      ret (Some (LoopableRegionDecoder_3 decoder startingFrame frameCount repeatCount), error)
  end.

(** The resolver's result as the argument of a region constructor. *)
Definition resolved (r : option Decoder * ErrorOut) : option DecoderObject :=
  option_map ConcreteDecoder (fst r).

(** [CreateDecoderForInputSourceRegion(InputSource::unique_ptr inputSource,
    SInt64 startingFrame, CFErrorRef *error)] *)
Definition CreateDecoderForInputSourceRegion_1 (inputSource : option InputSource)
    (startingFrame : Z) (error : ErrorOut) : Traced (option DecoderObject * ErrorOut) :=
  match inputSource with
  | None => ret (None, error)
  | Some _ =>
      r <- CreateDecoderForInputSource_2 inputSource error ;;
      CreateDecoderForDecoderRegion_1 (resolved r) startingFrame (snd r)
  end.

(** [CreateDecoderForInputSourceRegion(InputSource::unique_ptr inputSource,
    SInt64 startingFrame, UInt32 frameCount, CFErrorRef *error)] *)
Definition CreateDecoderForInputSourceRegion_2 (inputSource : option InputSource)
    (startingFrame frameCount : Z) (error : ErrorOut)
  : Traced (option DecoderObject * ErrorOut) :=
  match inputSource with
  | None => ret (None, error)
  | Some _ =>
      r <- CreateDecoderForInputSource_2 inputSource error ;;
      CreateDecoderForDecoderRegion_2 (resolved r) startingFrame frameCount (snd r)
  end.

(** [CreateDecoderForInputSourceRegion(InputSource::unique_ptr inputSource,
    SInt64 startingFrame, UInt32 frameCount, UInt32 repeatCount, CFErrorRef *error)] *)
Definition CreateDecoderForInputSourceRegion_3 (inputSource : option InputSource)
    (startingFrame frameCount repeatCount : Z) (error : ErrorOut)
  : Traced (option DecoderObject * ErrorOut) :=
  match inputSource with
  | None => ret (None, error)
  | Some _ =>
      r <- CreateDecoderForInputSource_2 inputSource error ;;
      CreateDecoderForDecoderRegion_3 (resolved r) startingFrame frameCount repeatCount (snd r)
  end.

(** [CreateDecoderForURLRegion(CFURLRef url, SInt64 startingFrame, CFErrorRef *error)] *)
Definition CreateDecoderForURLRegion_1 (url : CFURL) (startingFrame : Z) (error : ErrorOut)
  : Traced (option DecoderObject * ErrorOut) :=
  let '(inputSource, error) := InputSource_CreateInputSourceForURL url 0%Z error in
  CreateDecoderForInputSourceRegion_1 inputSource startingFrame error.

(** [CreateDecoderForURLRegion(CFURLRef url, SInt64 startingFrame,
    UInt32 frameCount, CFErrorRef *error)] *)
Definition CreateDecoderForURLRegion_2 (url : CFURL) (startingFrame frameCount : Z)
    (error : ErrorOut) : Traced (option DecoderObject * ErrorOut) :=
  let '(inputSource, error) := InputSource_CreateInputSourceForURL url 0%Z error in
  CreateDecoderForInputSourceRegion_2 inputSource startingFrame frameCount error.

(** [CreateDecoderForURLRegion(CFURLRef url, SInt64 startingFrame,
    UInt32 frameCount, UInt32 repeatCount, CFErrorRef *error)] *)
Definition CreateDecoderForURLRegion_3 (url : CFURL) (startingFrame frameCount repeatCount : Z)
    (error : ErrorOut) : Traced (option DecoderObject * ErrorOut) :=
  let '(inputSource, error) := InputSource_CreateInputSourceForURL url 0%Z error in
  CreateDecoderForInputSourceRegion_3 inputSource startingFrame frameCount repeatCount error.

End Model.

(** ** A small concrete world

    Sources, decoders and registered subclasses simple enough to run the
    model on: a source records whether opening and closing it succeed, a
    decoder whether its hooks do. *)

Module Fixture.

Local Open Scope string_scope.

Record URL : Type := {
  urlPath : string;
  urlPathExtension : CFStringRef
}.

Record Source : Type := {
  srcURL : option URL;
  srcIsOpen : bool;
  srcOpens : bool;
  srcCloses : bool
}.

Definition ioError : CFError URL :=
  {| errDomain := "fixture"; errCode := 1%Z; errDescription := "input/output error";
     errURL := None; errFailureReason := "io"; errRecoverySuggestion := "retry" |}.

Definition sourceOpen (s : Source) (error : ErrorOut URL) : bool * Source * ErrorOut URL :=
  if srcOpens s then
    (true, {| srcURL := srcURL s; srcIsOpen := true;
              srcOpens := srcOpens s; srcCloses := srcCloses s |}, error)
  else (false, s, storeError error ioError).

Definition sourceClose (s : Source) (error : ErrorOut URL) : bool * Source * ErrorOut URL :=
  if srcCloses s then
    (true, {| srcURL := srcURL s; srcIsOpen := false;
              srcOpens := srcOpens s; srcCloses := srcCloses s |}, error)
  else (false, s, storeError error ioError).

Definition fileSource (url : URL) : Source :=
  {| srcURL := Some url; srcIsOpen := false; srcOpens := true; srcCloses := true |}.

#[export] Instance sourceOps : InputSourceOps URL Source := {
  InputSource_IsOpen := srcIsOpen;
  InputSource_Open := sourceOpen;
  InputSource_Close := sourceClose;
  InputSource_GetURL := srcURL;
  InputSource_CreateInputSourceForURL := fun url _ error => (Some (fileSource url), error);
  InputSource_ErrorDomain := "org.sbooth.AudioEngine.ErrorDomain.InputSource";
  InputSource_FileNotFoundError := 0%Z;
  CFURLCopyPathExtension := urlPathExtension
}.

Record Codec : Type := {
  codecName : string;
  codecOpens : bool;
  codecCloses : bool;
  codecTotalFrames : Z;
  codecCurrentFrame : Z
}.

Definition codecError : CFError URL :=
  {| errDomain := "fixture"; errCode := 2%Z; errDescription := "not a valid file";
     errURL := None; errFailureReason := "format"; errRecoverySuggestion := "none" |}.

Definition seekCodec (c : Codec) (frame : Z) : Codec :=
  {| codecName := codecName c; codecOpens := codecOpens c; codecCloses := codecCloses c;
     codecTotalFrames := codecTotalFrames c; codecCurrentFrame := frame |}.

#[export] Instance hooks : DecoderHooks URL Source Codec (list Z) := {
  _Open := fun c s error =>
    if codecOpens c then (true, c, s, error) else (false, c, s, storeError error codecError);
  _Close := fun c s error =>
    if codecCloses c then (true, c, s, error) else (false, c, s, storeError error codecError);
  _ReadAudio := fun c s buffer frameCount =>
    let n := Z.max 0 (Z.min frameCount (codecTotalFrames c - codecCurrentFrame c)) in
    (n, seekCodec c (codecCurrentFrame c + n), s, repeat 0%Z (Z.to_nat n));
  _GetTotalFrames := fun c _ => codecTotalFrames c;
  _GetCurrentFrame := fun c _ => codecCurrentFrame c;
  _SupportsSeeking := fun _ _ => true;
  _SeekToFrame := fun c s frame => (frame, seekCodec c frame, s)
}.

Definition codec (name : string) (opens closes : bool) : Codec :=
  {| codecName := name; codecOpens := opens; codecCloses := closes;
     codecTotalFrames := 1000%Z; codecCurrentFrame := 0%Z |}.

(** A registered subclass in the shape of the real ones: it knows some
    extensions and MIME types, compares ignoring case, and its
    [CreateDecoder] runs the base-class constructor on the source. *)
Definition subclass (name : string) (extensions mimeTypes : list string) (opens : bool)
  : SubclassInfo (InputSource := Source) (Impl := Codec) :=
  {| mCreateSupportedFileExtensions := extensions;
     mCreateSupportedMIMETypes := mimeTypes;
     mHandlesFilesWithExtension := handlesAnyOf extensions;
     mHandlesMIMEType := handlesAnyOf mimeTypes;
     mCreateDecoder := fun inputSource => Decoder_ctor inputSource (codec name opens true) |}.

Definition mp3 : SubclassInfo := subclass "MP3" ["mp3"] ["audio/mpeg"] true.
Definition wavpack : SubclassInfo := subclass "WavPack" ["wv"] ["audio/wavpack"] true.
Definition brokenWavpack : SubclassInfo :=
  subclass "BrokenWavPack" ["wv"] ["audio/wavpack"] false.
(** A subclass for files without a recognisable name: it claims the empty
    extension and the empty MIME type. *)
Definition raw : SubclassInfo := subclass "Raw" [""] [""] true.

Definition songURL : URL := {| urlPath := "/music/song.mp3"; urlPathExtension := Some "mp3" |}.
Definition bareURL : URL := {| urlPath := "/music/song"; urlPathExtension := None |}.

Definition song : Source := fileSource songURL.
Definition bare : Source := fileSource bareURL.
Definition pipe : Source :=
  {| srcURL := None; srcIsOpen := true; srcOpens := true; srcCloses := true |}.

Definition openSong : Source :=
  {| srcURL := Some songURL; srcIsOpen := true; srcOpens := true; srcCloses := true |}.

Definition closedDecoder : Decoder := Decoder_ctor song (codec "MP3" true true).
Definition openDecoder : Decoder :=
  {| mInputSource := openSong; mIsOpen := true; mImpl := codec "MP3" true true |}.
(** An open decoder whose [_Close] reports a failure. *)
Definition stuckDecoder : Decoder :=
  {| mInputSource := openSong; mIsOpen := true; mImpl := codec "MP3" true false |}.

Definition noError : ErrorOut URL := Some None.

End Fixture.

(** ** More classes of events, and subclasses that declare what they handle *)

Definition isSourceOpen (e : Event) : bool :=
  match e with EvSourceOpen => true | _ => false end.

Definition isCreateDecoder (e : Event) : bool :=
  match e with EvCreateDecoder _ => true | _ => false end.

(** The calls that open something: the source, or the decoder's hook. *)
Definition isOpeningCall (e : Event) : bool :=
  match e with EvSourceOpen | EvHook HOpen => true | _ => false end.

(** The calls that close something: the source, or the decoder's hook. *)
Definition isClosingCall (e : Event) : bool :=
  match e with EvSourceClose | EvHook HClose => true | _ => false end.

Definition isSome {A : Type} (o : option A) : bool :=
  match o with Some _ => true | None => false end.

(** A subclass whose two tests accept exactly the names that its two lists
    declare, ignoring case, as [MP3Metadata] below does. *)
Definition declaresWhatItHandles {InputSource Impl : Type}
    (info : @SubclassInfo InputSource Impl) : Prop :=
  (forall s, mHandlesFilesWithExtension info s =
             handlesAnyOf (mCreateSupportedFileExtensions info) s) /\
  (forall s, mHandlesMIMEType info s =
             handlesAnyOf (mCreateSupportedMIMETypes info) s).

(** [selects auto handles query subs s e d e']: scanning [subs] from the
    source [s] and the error [e], the loop of the resolver comes to a
    subclass that handles the input after the scan of the subclasses
    registered before it ended without a decoder, and [d] is the decoder of
    that subclass: as constructed without automatic opening, as opened with
    it, [e'] being the error at that point. *)
Definition selects {CFURL InputSource Impl AudioBufferList : Type}
    {sourceOps : InputSourceOps CFURL InputSource}
    {hooks : DecoderHooks CFURL InputSource Impl AudioBufferList}
    (auto : bool) (handles : @SubclassInfo InputSource Impl -> bool) (query : nat -> Event)
    (subs : list (@SubclassInfo InputSource Impl))
    (s : InputSource) (e : ErrorOut CFURL)
    (d : @Decoder InputSource Impl) (e' : ErrorOut CFURL) : Prop :=
  exists pre info post s1 e1,
    subs = pre ++ info :: post /\
    value (trySubclasses auto handles query pre 0 s e) = (inr s1, e1) /\
    handles info = true /\
    if auto then value (Open (mCreateDecoder info s1) e1) = (true, d, e')
    else d = mCreateDecoder info s1 /\ e' = e1.

(** ** [SFB::Audio::MP3Metadata] *)

Module MP3Metadata.

Local Open Scope string_scope.

(** [CFArrayRef MP3Metadata::CreateSupportedFileExtensions()] *)
Definition CreateSupportedFileExtensions : list string := ["mp3"].

(** [CFArrayRef MP3Metadata::CreateSupportedMIMETypes()] *)
Definition CreateSupportedMIMETypes : list string := ["audio/mpeg"].

(** [bool MP3Metadata::HandlesFilesWithExtension(CFStringRef extension)] *)
Definition HandlesFilesWithExtension (extension : CFStringRef) : bool :=
  match extension with
  | None => false
  | Some x => if caseInsensitiveEqual x "mp3" then true else false
  end.

(** [bool MP3Metadata::HandlesMIMEType(CFStringRef mimeType)] *)
Definition HandlesMIMEType (mimeType : CFStringRef) : bool :=
  match mimeType with
  | None => false
  | Some x => if caseInsensitiveEqual x "audio/mpeg" then true else false
  end.

(** [(int)] applied to TagLib's unsigned frame count: the value modulo
    [2^32], read as a signed 32-bit integer. *)
Definition castToInt (n : Z) : Z :=
  ((n + 2 ^ 31) mod 2 ^ 32 - 2 ^ 31)%Z.

(** What TagLib shows of an MPEG file: whether it parsed, its audio
    properties, and the three tags, each of which may be absent. *)
Record MPEGFile (AudioProperties APE ID3v1 ID3v2 : Type) : Type := {
  isValid : bool;
  audioProperties : option AudioProperties;
  APETag : option APE;
  ID3v1Tag : option ID3v1;
  ID3v2Tag : option ID3v2
}.

(** The metadata object: the locator, the dictionary and the attached
    pictures ([mURL], [mMetadata], [mPictures] of [AudioMetadata]). *)
Record Metadata (CFURL Dictionary Pictures : Type) : Type := {
  mURL : CFURL;
  mMetadata : Dictionary;
  mPictures : Pictures
}.

(** What [_ReadMetadata] and [_WriteMetadata] call outside [MP3Metadata]:
    CoreFoundation, TagLib, and the helpers of the other source files that
    move values between a tag and the dictionary. *)
Class Environment (CFURL Path Stream Dictionary Pictures
                   AudioProperties XingHeader APE ID3v1 ID3v2 : Type) : Type := {
  CFURLGetFileSystemRepresentation : CFURL -> option Path;
  FileStream_new : Path -> bool -> Stream;
  FileStream_isOpen : Stream -> bool;
  MPEGFile_new : Stream -> bool -> MPEGFile AudioProperties APE ID3v1 ID3v2;
  MPEGFile_save : MPEGFile AudioProperties APE ID3v1 ID3v2 -> bool;
  xingHeader : AudioProperties -> option XingHeader;
  totalFrames : XingHeader -> Z;
  APE_isEmpty : APE -> bool;
  ID3v1_isEmpty : ID3v1 -> bool;
  ID3v2_new : ID3v2;
  Metadata_ErrorDomain : string;
  Metadata_InputOutputError : Z;
  kFormatNameKey : string;
  kTotalFramesKey : string;
  CFDictionarySetValue : Dictionary -> string -> string -> Dictionary;
  AddIntToDictionary : Dictionary -> string -> Z -> Dictionary;
  AddAudioPropertiesToDictionary : Dictionary -> AudioProperties -> Dictionary;
  AddAPETagToDictionary : Dictionary -> Pictures -> APE -> Dictionary * Pictures;
  AddID3v1TagToDictionary : Dictionary -> ID3v1 -> Dictionary;
  AddID3v2TagToDictionary : Dictionary -> Pictures -> ID3v2 -> Dictionary * Pictures;
  SetAPETagFromMetadata : Metadata CFURL Dictionary Pictures -> APE -> APE;
  SetID3v1TagFromMetadata : Metadata CFURL Dictionary Pictures -> ID3v1 -> ID3v1;
  SetID3v2TagFromMetadata : Metadata CFURL Dictionary Pictures -> ID3v2 -> ID3v2
}.

Section ReadWrite.

Context {CFURL Path Stream Dictionary Pictures
         AudioProperties XingHeader APE ID3v1 ID3v2 : Type}.
Context {env : Environment CFURL Path Stream Dictionary Pictures
                 AudioProperties XingHeader APE ID3v1 ID3v2}.

Local Abbreviation ErrorOut := (ErrorOut CFURL).
Local Abbreviation Metadata := (Metadata CFURL Dictionary Pictures).
Local Abbreviation MPEGFile := (MPEGFile AudioProperties APE ID3v1 ID3v2).

(** The errors of [_ReadMetadata] and [_WriteMetadata]. *)
Definition cannotReadError (url : CFURL) : CFError CFURL :=
  CreateErrorForURL Metadata_ErrorDomain Metadata_InputOutputError
    "The file “%@” could not be opened for reading."
    url
    "Input/output error"
    "The file may have been renamed, moved, deleted, or you may not have appropriate permissions.".

Definition cannotOpenForWritingError (url : CFURL) : CFError CFURL :=
  CreateErrorForURL Metadata_ErrorDomain Metadata_InputOutputError
    "The file “%@” could not be opened for writing."
    url
    "Input/output error"
    "The file may have been renamed, moved, deleted, or you may not have appropriate permissions.".

Definition notMPEGError (url : CFURL) : CFError CFURL :=
  CreateErrorForURL Metadata_ErrorDomain Metadata_InputOutputError
    "The file “%@” is not a valid MPEG file."
    url
    "Not an MPEG file"
    "The file's extension may not match the file's type.".

Definition cannotWriteError (url : CFURL) : CFError CFURL :=
  CreateErrorForURL Metadata_ErrorDomain Metadata_InputOutputError
    "The file “%@” is not a valid MPEG file."
    url
    "Unable to write metadata"
    "The file's extension may not match the file's type.".

(** [bool MP3Metadata::_ReadMetadata(CFErrorRef *error)]: the result, the
    metadata object afterwards, and the error. *)
Definition _ReadMetadata (m : Metadata) (error : ErrorOut) : bool * Metadata * ErrorOut :=
  match CFURLGetFileSystemRepresentation (mURL m) with
  | None => (false, m, error)
  | Some buf =>
      let stream := FileStream_new buf true in
      if negb (FileStream_isOpen stream) then
        (false, m, storeError error (cannotReadError (mURL m)))
      else
        let file := MPEGFile_new stream true in
        if negb (isValid file) then
          (false, m, storeError error (notMPEGError (mURL m)))
        else
          let d := CFDictionarySetValue (mMetadata m) kFormatNameKey "MP3" in
          let d :=
            match audioProperties file with
            | Some properties =>
                let d := AddAudioPropertiesToDictionary d properties in
                match xingHeader properties with
                | Some xing =>
                    if negb (totalFrames xing =? 0)%Z then
                      AddIntToDictionary d kTotalFramesKey (castToInt (totalFrames xing))
                    else d
                | None => d
                end
            | None => d
            end in
          let '(d, p) :=
            match APETag file with
            | Some tag => AddAPETagToDictionary d (mPictures m) tag
            | None => (d, mPictures m)
            end in
          let d :=
            match ID3v1Tag file with
            | Some tag => AddID3v1TagToDictionary d tag
            | None => d
            end in
          let '(d, p) :=
            match ID3v2Tag file with
            | Some tag => AddID3v2TagToDictionary d p tag
            | None => (d, p)
            end in
          (true, {| mURL := mURL m; mMetadata := d; mPictures := p |}, error)
  end.

(** [bool MP3Metadata::_WriteMetadata(CFErrorRef *error)]: the result, the
    error, and the file as it is handed to [save()], if it gets that far.
    [file.ID3v2Tag(true)] creates the tag when the file has none. *)
Definition _WriteMetadata (m : Metadata) (error : ErrorOut)
  : bool * ErrorOut * option MPEGFile :=
  match CFURLGetFileSystemRepresentation (mURL m) with
  | None => (false, error, None)
  | Some buf =>
      let stream := FileStream_new buf false in
      if negb (FileStream_isOpen stream) then
        (false, storeError error (cannotOpenForWritingError (mURL m)), None)
      else
        let file := MPEGFile_new stream false in
        if negb (isValid file) then
          (false, storeError error (notMPEGError (mURL m)), None)
        else
          (* APE and ID3v1 tags are only written if present, but ID3v2 tags
             are always written *)
          let ape :=
            match APETag file with
            | Some tag =>
                if negb (APE_isEmpty tag) then Some (SetAPETagFromMetadata m tag)
                else Some tag
            | None => None
            end in
          let id3v1 :=
            match ID3v1Tag file with
            | Some tag =>
                if negb (ID3v1_isEmpty tag) then Some (SetID3v1TagFromMetadata m tag)
                else Some tag
            | None => None
            end in
          let id3v2 :=
            match ID3v2Tag file with
            | Some tag => tag
            | None => ID3v2_new
            end in
          let file :=
            {| isValid := isValid file;
               audioProperties := audioProperties file;
               APETag := ape;
               ID3v1Tag := id3v1;
               ID3v2Tag := Some (SetID3v2TagFromMetadata m id3v2) |} in
          if negb (MPEGFile_save file) then
            (false, storeError error (cannotWriteError (mURL m)), Some file)
          else (true, error, Some file)
  end.

End ReadWrite.

End MP3Metadata.

(** ** More of the small concrete world *)

Module Cases.

Import Fixture.
Local Open Scope string_scope.

(** A source that is closed and cannot be opened. *)
Definition lockedSong : Source :=
  {| srcURL := Some songURL; srcIsOpen := false; srcOpens := false; srcCloses := true |}.

Definition lockedDecoder : Decoder := Decoder_ctor lockedSong (codec "MP3" true true).

(** Sources as above, in a world where none can be created for a URL. *)
Definition offlineSourceOps : InputSourceOps URL Source :=
  {| InputSource_IsOpen := srcIsOpen;
     InputSource_Open := sourceOpen;
     InputSource_Close := sourceClose;
     InputSource_GetURL := srcURL;
     InputSource_CreateInputSourceForURL := fun _ _ error => (None, storeError error ioError);
     InputSource_ErrorDomain := "org.sbooth.AudioEngine.ErrorDomain.InputSource";
     InputSource_FileNotFoundError := 0%Z;
     CFURLCopyPathExtension := urlPathExtension |}.

(** Files for [MP3Metadata]: tags are their titles, the dictionary is a list
    of entries, the pictures are counted. *)
Definition File : Type := MP3Metadata.MPEGFile Z string string string.
Definition Dictionary : Type := list (string * (string + Z)).

(** A valid file with audio properties, an empty ID3v1 tag and an APE tag,
    but no ID3v2 tag. *)
Definition taggedFile : File :=
  {| MP3Metadata.isValid := true;
     MP3Metadata.audioProperties := Some 128%Z;
     MP3Metadata.APETag := Some "Blue in Green";
     MP3Metadata.ID3v1Tag := Some "";
     MP3Metadata.ID3v2Tag := None |}.

Definition notAFile : File :=
  {| MP3Metadata.isValid := false;
     MP3Metadata.audioProperties := None;
     MP3Metadata.APETag := None;
     MP3Metadata.ID3v1Tag := None;
     MP3Metadata.ID3v2Tag := None |}.

Definition disk (path : string) : option File :=
  if String.eqb path "/music/song.mp3" then Some taggedFile
  else if String.eqb path "/music/notes.mp3" then Some notAFile
  else None.

#[export] Instance env
  : MP3Metadata.Environment URL string (option File) Dictionary nat Z Z string string string := {
  MP3Metadata.CFURLGetFileSystemRepresentation := fun url =>
    if String.eqb (urlPath url) "" then None else Some (urlPath url);
  MP3Metadata.FileStream_new := fun path _ => disk path;
  MP3Metadata.FileStream_isOpen := isSome (A := File);
  MP3Metadata.MPEGFile_new := fun stream _ =>
    match stream with Some file => file | None => notAFile end;
  MP3Metadata.MPEGFile_save := fun _ => true;
  MP3Metadata.xingHeader := fun _ => Some 1000%Z;
  MP3Metadata.totalFrames := fun xing => xing;
  MP3Metadata.APE_isEmpty := fun tag => String.eqb tag "";
  MP3Metadata.ID3v1_isEmpty := fun tag => String.eqb tag "";
  MP3Metadata.ID3v2_new := "";
  MP3Metadata.Metadata_ErrorDomain := "org.sbooth.AudioEngine.ErrorDomain.AudioMetadata";
  MP3Metadata.Metadata_InputOutputError := 1%Z;
  MP3Metadata.kFormatNameKey := "Format Name";
  MP3Metadata.kTotalFramesKey := "Total Frames";
  MP3Metadata.CFDictionarySetValue := fun d key v => (key, inl v) :: d;
  MP3Metadata.AddIntToDictionary := fun d key n => (key, inr n) :: d;
  MP3Metadata.AddAudioPropertiesToDictionary := fun d bitrate => ("Bitrate", inr bitrate) :: d;
  MP3Metadata.AddAPETagToDictionary := fun d pictures tag => (("Title", inl tag) :: d, pictures);
  MP3Metadata.AddID3v1TagToDictionary := fun d tag => ("Title", inl tag) :: d;
  MP3Metadata.AddID3v2TagToDictionary := fun d pictures tag =>
    (("Title", inl tag) :: d, S pictures);
  MP3Metadata.SetAPETagFromMetadata := fun _ _ => "So What";
  MP3Metadata.SetID3v1TagFromMetadata := fun _ _ => "So What";
  MP3Metadata.SetID3v2TagFromMetadata := fun _ _ => "So What"
}.

Definition notesURL : URL :=
  {| urlPath := "/music/notes.mp3"; urlPathExtension := Some "mp3" |}.

Definition songMetadata : MP3Metadata.Metadata URL Dictionary nat :=
  {| MP3Metadata.mURL := songURL; MP3Metadata.mMetadata := []; MP3Metadata.mPictures := 0%nat |}.

Definition notesMetadata : MP3Metadata.Metadata URL Dictionary nat :=
  {| MP3Metadata.mURL := notesURL; MP3Metadata.mMetadata := [("Title", inl "Notes")];
     MP3Metadata.mPictures := 2%nat |}.

End Cases.

(** * Properties *)

Section Properties.

Context {CFURL InputSource Impl AudioBufferList : Type}.
Context {sourceOps : InputSourceOps CFURL InputSource}.
Context {hooks : DecoderHooks CFURL InputSource Impl AudioBufferList}.

Local Abbreviation ErrorOut := (ErrorOut CFURL).
Local Abbreviation Decoder := (@Decoder InputSource Impl).
Local Abbreviation SubclassInfo := (@SubclassInfo InputSource Impl).

Ltac traced :=
  unfold bind, ret, emit, logInfo, logWarning, value, trace in *; simpl in *.

(** *** Traces of a bind *)

Lemma trace_bind (A B : Type) (m : Traced A) (f : A -> Traced B) :
  trace (bind m f) = trace m ++ trace (f (value m)).
Proof.
  destruct m as [a t]. unfold bind, trace, value. simpl.
  destruct (f a) as [b t']. reflexivity.
Qed.

Lemma value_bind (A B : Type) (m : Traced A) (f : A -> Traced B) :
  value (bind m f) = value (f (value m)).
Proof.
  destruct m as [a t]. unfold bind, trace, value. simpl.
  destruct (f a) as [b t']. reflexivity.
Qed.

Lemma traced_eta (A : Type) (m : Traced A) : m = (value m, trace m).
Proof. destruct m; reflexivity. Qed.

(** *** What [Open] can call *)

Lemma ensureSourceOpen_avoids (P : Event -> bool) (inputSource : InputSource)
    (error : ErrorOut) :
  avoidsOpening P -> existsb P (trace (ensureSourceOpen inputSource error)) = false.
Proof.
  intros (Hlog & Hsrc & Hhook). unfold ensureSourceOpen.
  destruct (InputSource_IsOpen inputSource); traced; [reflexivity|].
  rewrite Hsrc. reflexivity.
Qed.

Lemma Open_avoids (P : Event -> bool) (d : Decoder) (error : ErrorOut) :
  avoidsOpening P -> existsb P (trace (Open d error)) = false.
Proof.
  intros (Hlog & Hsrc & Hhook). unfold Open, ensureSourceOpen, IsOpen.
  destruct (mIsOpen d); traced.
  - rewrite Hlog. reflexivity.
  - destruct (InputSource_IsOpen (mInputSource d)); traced.
    + destruct (_Open (mImpl d) (mInputSource d) error) as [[[result impl] src] e].
      simpl. rewrite Hhook. reflexivity.
    + destruct (InputSource_Open (mInputSource d) error) as [[opened src] e].
      destruct opened; simpl.
      * destruct (_Open (mImpl d) src e) as [[[result impl] src'] e'].
        simpl. rewrite Hsrc, Hhook. reflexivity.
      * rewrite Hsrc. reflexivity.
Qed.

(** *** The scanning loop *)

Section Loop.

Variable auto : bool.
Variable handles : SubclassInfo -> bool.
Variable query : nat -> Event.

(** Only queries, constructions and the events of opening occur in the loop. *)
Lemma trySubclasses_avoids (P : Event -> bool) :
  avoidsOpening P ->
  (forall j, P (query j) = false) ->
  (forall j, P (EvCreateDecoder j) = false) ->
  forall subclasses i inputSource error,
    existsb P (trace (trySubclasses auto handles query subclasses i inputSource error)) = false.
Proof.
  intros Hopen Hquery Hcreate.
  induction subclasses as [|info rest IH]; intros i inputSource error.
  - reflexivity.
  - cbn [trySubclasses]. rewrite trace_bind. rewrite existsb_app.
    cbn [emit trace snd value fst existsb]. rewrite Hquery. cbn [orb].
    destruct (handles info); [|apply IH].
    rewrite trace_bind, existsb_app.
    cbn [emit trace snd value fst existsb]. rewrite Hcreate. cbn [orb].
    unfold AutomaticallyOpenDecoders. destruct auto; cbn [negb]; [|reflexivity].
    rewrite trace_bind, existsb_app, (Open_avoids _ _ Hopen). cbn [orb].
    destruct (value (Open (mCreateDecoder info inputSource) error)) as [[opened d] e].
    destruct opened; [reflexivity|apply IH].
Qed.

(** Subclasses that do not handle the input are passed over: the source and
    the error stay as they are, and each is queried once. *)
Lemma trySubclasses_skip (pre rest : list SubclassInfo) (i : nat)
    (inputSource : InputSource) (error : ErrorOut) :
  (forall info, In info pre -> handles info = false) ->
  trySubclasses auto handles query (pre ++ rest) i inputSource error =
  (value (trySubclasses auto handles query rest (List.length pre + i) inputSource error),
   map query (seq i (List.length pre)) ++
   trace (trySubclasses auto handles query rest (List.length pre + i) inputSource error)).
Proof.
  revert i. induction pre as [|info pre IH]; intros i Hpre.
  - cbn. apply traced_eta.
  - cbn [app trySubclasses List.length seq map].
    rewrite (Hpre info (or_introl eq_refl)).
    unfold bind at 1. cbn [emit].
    rewrite IH by (intros; apply Hpre; right; assumption).
    cbn. replace (List.length pre + S i)%nat with (S (List.length pre + i)) by lia.
    reflexivity.
Qed.

(** The step at a subclass that handles the input, without automatic
    opening: its decoder is returned as constructed. *)
Lemma trySubclasses_match_unopened (info : SubclassInfo) (rest : list SubclassInfo)
    (i : nat) (inputSource : InputSource) (error : ErrorOut) :
  auto = false -> handles info = true ->
  trySubclasses auto handles query (info :: rest) i inputSource error =
  ((inl (mCreateDecoder info inputSource), error), [query i; EvCreateDecoder i]).
Proof.
  intros Hauto Hinfo. cbn [trySubclasses]. rewrite Hinfo.
  unfold AutomaticallyOpenDecoders. rewrite Hauto. reflexivity.
Qed.

(** The step at a subclass that handles the input, with automatic opening,
    when its decoder opens. *)
Lemma trySubclasses_match_opened (info : SubclassInfo) (rest : list SubclassInfo)
    (i : nat) (inputSource : InputSource) (error : ErrorOut)
    (d : Decoder) (e : ErrorOut) :
  auto = true -> handles info = true ->
  value (Open (mCreateDecoder info inputSource) error) = (true, d, e) ->
  trySubclasses auto handles query (info :: rest) i inputSource error =
  ((inl d, e),
   query i :: EvCreateDecoder i :: trace (Open (mCreateDecoder info inputSource) error)).
Proof.
  intros Hauto Hinfo Hopen. cbn [trySubclasses]. rewrite Hinfo.
  unfold AutomaticallyOpenDecoders. rewrite Hauto. cbn [negb].
  rewrite (traced_eta (Open (mCreateDecoder info inputSource) error)), Hopen.
  unfold bind, emit, ret. cbn. rewrite app_nil_r. reflexivity.
Qed.

(** The step at a subclass that handles the input, with automatic opening,
    when its decoder fails to open: the loop goes on with the next subclass,
    holding the source of the failed decoder. *)
Lemma trySubclasses_match_failed (info : SubclassInfo) (rest : list SubclassInfo)
    (i : nat) (inputSource : InputSource) (error : ErrorOut)
    (d : Decoder) (e : ErrorOut) :
  auto = true -> handles info = true ->
  value (Open (mCreateDecoder info inputSource) error) = (false, d, e) ->
  trySubclasses auto handles query (info :: rest) i inputSource error =
  (value (trySubclasses auto handles query rest (S i) (mInputSource d) e),
   query i :: EvCreateDecoder i :: trace (Open (mCreateDecoder info inputSource) error)
   ++ trace (trySubclasses auto handles query rest (S i) (mInputSource d) e)).
Proof.
  intros Hauto Hinfo Hopen. cbn [trySubclasses]. rewrite Hinfo.
  unfold AutomaticallyOpenDecoders. rewrite Hauto. cbn [negb].
  rewrite (traced_eta (Open (mCreateDecoder info inputSource) error)), Hopen.
  unfold bind, emit, ret. cbn.
  destruct (trySubclasses true handles query rest (S i) (mInputSource d) e) as [v t].
  reflexivity.
Qed.

End Loop.

(** *** The phases of the resolver *)

Section Resolver.

Variable subs : list SubclassInfo.
Variable auto : bool.

Lemma openSourceIfAutomatic_avoids (P : Event -> bool) (inputSource : InputSource)
    (error : ErrorOut) :
  avoidsOpening P ->
  existsb P (trace (openSourceIfAutomatic auto inputSource error)) = false.
Proof.
  intros HP. unfold openSourceIfAutomatic, AutomaticallyOpenDecoders.
  destruct auto; [apply ensureSourceOpen_avoids; assumption|reflexivity].
Qed.

Lemma tryMIMEType_avoids (P : Event -> bool) (mimeType : CFStringRef)
    (inputSource : InputSource) (error : ErrorOut) :
  avoidsOpening P ->
  (forall j, P (EvHandlesMIMEType j) = false) ->
  (forall j, P (EvCreateDecoder j) = false) ->
  existsb P (trace (tryMIMEType subs auto mimeType inputSource error)) = false.
Proof. intros. unfold tryMIMEType. apply trySubclasses_avoids; assumption. Qed.

Lemma resolveByExtension_avoids (P : Event -> bool) (inputSource : InputSource)
    (error : ErrorOut) :
  avoidsOpening P ->
  (forall j, P (EvHandlesFilesWithExtension j) = false) ->
  (forall j, P (EvCreateDecoder j) = false) ->
  existsb P (trace (resolveByExtension subs auto inputSource error)) = false.
Proof.
  intros Hopen Hquery Hcreate. unfold resolveByExtension.
  destruct (InputSource_GetURL inputSource) as [url|]; [|reflexivity].
  destruct (CFURLCopyPathExtension url) as [ext|]; [|reflexivity].
  rewrite trace_bind.
  assert (Hloop : existsb P (trace (tryExtension subs auto (Some ext) inputSource error)) = false)
    by (unfold tryExtension; apply trySubclasses_avoids; assumption).
  rewrite existsb_app, Hloop.
  destruct (value (tryExtension subs auto (Some ext) inputSource error)) as [[d|s] e];
    reflexivity.
Qed.

(** The resolver gives up when the source cannot be opened. *)
Lemma resolver_source_fails (inputSource : InputSource) (mimeType : CFStringRef)
    (error : ErrorOut) (s0 : InputSource) (e0 : ErrorOut) :
  value (openSourceIfAutomatic auto inputSource error) = (false, s0, e0) ->
  CreateDecoderForInputSource subs auto (Some inputSource) mimeType error =
  ((None, e0), trace (openSourceIfAutomatic auto inputSource error)).
Proof.
  intros H. unfold CreateDecoderForInputSource.
  rewrite (traced_eta (openSourceIfAutomatic auto inputSource error)), H.
  unfold bind, ret. cbn. rewrite app_nil_r. reflexivity.
Qed.

(** A decoder found by MIME type is the resolver's result. *)
Lemma resolver_mime_found (inputSource : InputSource) (mimeType : string)
    (error : ErrorOut) (s0 : InputSource) (e0 : ErrorOut) (d : Decoder) (e1 : ErrorOut) :
  value (openSourceIfAutomatic auto inputSource error) = (true, s0, e0) ->
  value (tryMIMEType subs auto (Some mimeType) s0 e0) = (inl d, e1) ->
  CreateDecoderForInputSource subs auto (Some inputSource) (Some mimeType) error =
  ((Some d, e1),
   trace (openSourceIfAutomatic auto inputSource error) ++
   trace (tryMIMEType subs auto (Some mimeType) s0 e0)).
Proof.
  intros H0 H1. unfold CreateDecoderForInputSource.
  rewrite (traced_eta (openSourceIfAutomatic auto inputSource error)), H0.
  unfold bind at 1. cbn [negb].
  rewrite (traced_eta (tryMIMEType subs auto (Some mimeType) s0 e0)), H1.
  unfold bind, ret. cbn. rewrite app_nil_r. reflexivity.
Qed.

(** When the scan by MIME type runs to its end, the resolver goes on by
    extension with the source and the error the scan left. *)
Lemma resolver_mime_exhausted (inputSource : InputSource) (mimeType : string)
    (error : ErrorOut) (s0 : InputSource) (e0 : ErrorOut) (s1 : InputSource)
    (e1 : ErrorOut) :
  value (openSourceIfAutomatic auto inputSource error) = (true, s0, e0) ->
  value (tryMIMEType subs auto (Some mimeType) s0 e0) = (inr s1, e1) ->
  CreateDecoderForInputSource subs auto (Some inputSource) (Some mimeType) error =
  (value (resolveByExtension subs auto s1 e1),
   trace (openSourceIfAutomatic auto inputSource error) ++
   trace (tryMIMEType subs auto (Some mimeType) s0 e0) ++
   trace (resolveByExtension subs auto s1 e1)).
Proof.
  intros H0 H1. unfold CreateDecoderForInputSource.
  rewrite (traced_eta (openSourceIfAutomatic auto inputSource error)), H0.
  unfold bind at 1. cbn [negb].
  rewrite (traced_eta (tryMIMEType subs auto (Some mimeType) s0 e0)), H1.
  unfold bind at 1.
  destruct (resolveByExtension subs auto s1 e1) as [v t]. reflexivity.
Qed.

(** Without a MIME type the resolver goes by extension at once. *)
Lemma resolver_no_mime (inputSource : InputSource) (error : ErrorOut)
    (s0 : InputSource) (e0 : ErrorOut) :
  value (openSourceIfAutomatic auto inputSource error) = (true, s0, e0) ->
  CreateDecoderForInputSource subs auto (Some inputSource) None error =
  (value (resolveByExtension subs auto s0 e0),
   trace (openSourceIfAutomatic auto inputSource error) ++
   trace (resolveByExtension subs auto s0 e0)).
Proof.
  intros H0. unfold CreateDecoderForInputSource.
  rewrite (traced_eta (openSourceIfAutomatic auto inputSource error)), H0.
  unfold bind at 1. cbn [negb]. unfold bind at 1, ret at 1.
  destruct (resolveByExtension subs auto s0 e0) as [v t]. reflexivity.
Qed.

(** No class of events that avoids opening, queries and constructions occurs
    anywhere in a resolution. *)
Lemma resolver_avoids (P : Event -> bool) (inputSource : option InputSource)
    (mimeType : CFStringRef) (error : ErrorOut) :
  avoidsOpening P ->
  (forall j, P (EvHandlesMIMEType j) = false) ->
  (forall j, P (EvHandlesFilesWithExtension j) = false) ->
  (forall j, P (EvCreateDecoder j) = false) ->
  existsb P (trace (CreateDecoderForInputSource subs auto inputSource mimeType error)) = false.
Proof.
  intros Hopen Hmime Hext Hcreate.
  destruct inputSource as [src|]; [|reflexivity].
  pose proof (openSourceIfAutomatic_avoids src error Hopen) as H0.
  destruct (value (openSourceIfAutomatic auto src error)) as [[ok s0] e0] eqn:E0.
  destruct ok.
  - destruct mimeType as [m|].
    + pose proof (tryMIMEType_avoids (Some m) s0 e0 Hopen Hmime Hcreate) as H1.
      destruct (value (tryMIMEType subs auto (Some m) s0 e0)) as [[d|s1] e1] eqn:E1.
      * rewrite (resolver_mime_found _ _ _ E0 E1). cbn [trace snd].
        rewrite existsb_app, H0, H1. reflexivity.
      * rewrite (resolver_mime_exhausted _ _ _ E0 E1). cbn [trace snd].
        rewrite !existsb_app, H0, H1.
        apply (resolveByExtension_avoids s1 e1 Hopen Hext Hcreate).
    + rewrite (resolver_no_mime _ _ E0). cbn [trace snd].
      rewrite existsb_app, H0.
      apply (resolveByExtension_avoids s0 e0 Hopen Hext Hcreate).
  - rewrite (resolver_source_fails _ _ _ E0). exact H0.
Qed.

End Resolver.

(** *** The lifecycle *)

(** C1, as the code has it.  For a decoder in the Open state, [Close] calls
    the close hook and then closes the owned source, whatever the hook
    returned; it returns [true] exactly when both succeeded.  The decoder is
    in the Closed state afterwards exactly when the close hook succeeded:
    when the hook fails the decoder stays Open. *)
Theorem Close_closes_iff_hook_succeeds (d : Decoder) (error : ErrorOut)
    (result : bool) (impl : Impl) (src1 : InputSource) (e1 : ErrorOut)
    (closed : bool) (src2 : InputSource) (e2 : ErrorOut) :
  IsOpen d = true ->
  _Close (mImpl d) (mInputSource d) error = (result, impl, src1, e1) ->
  InputSource_Close src1 e1 = (closed, src2, e2) ->
  Close d error =
  ((result && closed,
    {| mInputSource := src2; mIsOpen := negb result; mImpl := impl |},
    e2),
   [EvHook HClose; EvSourceClose]).
Proof.
  unfold Close, IsOpen. intros Hopen Hhook Hsource.
  rewrite Hopen. cbn [negb]. traced. rewrite Hhook, Hsource.
  destruct result, closed; reflexivity.
Qed.

(** C4.  On a decoder that is not Open, [ReadAudio] returns 0,
    [GetTotalFrames], [GetCurrentFrame] and [SeekToFrame] return -1 and
    [SupportsSeeking] returns false, for all arguments; the decoder (and the
    caller's buffer) are left as they were and no hook is called. *)
Theorem closed_decoder_is_safe (d : Decoder) (bufferList : option AudioBufferList)
    (frameCount frame : Z) :
  IsOpen d = false ->
  (value (ReadAudio d bufferList frameCount) = (0%Z, d, bufferList) /\
   existsb isHook (trace (ReadAudio d bufferList frameCount)) = false) /\
  (value (GetTotalFrames d) = (-1)%Z /\
   existsb isHook (trace (GetTotalFrames d)) = false) /\
  (value (GetCurrentFrame d) = (-1)%Z /\
   existsb isHook (trace (GetCurrentFrame d)) = false) /\
  (value (SeekToFrame d frame) = ((-1)%Z, d) /\
   existsb isHook (trace (SeekToFrame d frame)) = false) /\
  (value (SupportsSeeking d) = false /\
   existsb isHook (trace (SupportsSeeking d)) = false).
Proof.
  intros Hclosed.
  unfold ReadAudio, GetTotalFrames, GetCurrentFrame, SeekToFrame, SupportsSeeking.
  rewrite Hclosed. cbn [negb]. traced. repeat split.
Qed.

(** C5.  [Open] on a decoder that is Open returns [true], and [Close] on a
    decoder that is Closed returns [true]; in both cases the decoder and the
    error are unchanged, and the only thing that happens is a log line: no
    hook is called and the source is not touched. *)
Theorem Open_Close_idempotent (d : Decoder) (error : ErrorOut) :
  (IsOpen d = true ->
   Open d error =
   ((true, d, error), [EvLog LogInfo "Open() called on a Decoder that is already open"])) /\
  (IsOpen d = false ->
   Close d error =
   ((true, d, error),
    [EvLog LogInfo "Close() called on a Decoder that hasn't been opened"])).
Proof.
  unfold Open, Close. split; intros H; rewrite H; reflexivity.
Qed.

(** C7.  On a decoder that is Open, [SeekToFrame frame] with [frame < 0] or
    [frame >= GetTotalFrames()] returns -1, leaves the decoder as it is and
    does not call the seek hook; for [0 <= frame < GetTotalFrames()] it calls
    the seek hook with [frame] and returns what the hook returns. *)
Theorem SeekToFrame_range_checked (d : Decoder) (frame : Z) :
  IsOpen d = true ->
  ((frame < 0 \/ frame >= value (GetTotalFrames d))%Z ->
   value (SeekToFrame d frame) = ((-1)%Z, d) /\
   existsb isSeekHook (trace (SeekToFrame d frame)) = false) /\
  ((0 <= frame < value (GetTotalFrames d))%Z ->
   forall result impl inputSource,
     _SeekToFrame (mImpl d) (mInputSource d) frame = (result, impl, inputSource) ->
     SeekToFrame d frame =
     ((result, {| mInputSource := inputSource; mIsOpen := true; mImpl := impl |}),
      [EvHook HGetTotalFrames; EvHook (HSeekToFrame frame)])).
Proof.
  intros Hopen. unfold SeekToFrame, GetTotalFrames. rewrite Hopen. cbn [negb].
  unfold IsOpen in Hopen. traced. split.
  - intros Hrange. destruct (0 >? frame)%Z eqn:Eneg; simpl.
    + split; reflexivity.
    + assert (Hge : (frame >=? _GetTotalFrames (mImpl d) (mInputSource d))%Z = true).
      { apply Z.geb_le. rewrite Z.gtb_ltb in Eneg. apply Z.ltb_ge in Eneg. lia. }
      rewrite Hge. simpl. split; reflexivity.
  - intros [Hlow Hhigh] result impl inputSource Hhook.
    assert (Eneg : (0 >? frame)%Z = false).
    { rewrite Z.gtb_ltb. apply Z.ltb_ge. lia. }
    assert (Hge : (frame >=? _GetTotalFrames (mImpl d) (mInputSource d))%Z = false).
    { rewrite Z.geb_leb. apply Z.leb_gt. lia. }
    rewrite Eneg. simpl. rewrite Hge, Hhook. simpl. rewrite Hopen. reflexivity.
Qed.

(** *** The registry *)

Section Scan.

Variable handles : SubclassInfo -> bool.
Variable query : nat -> Event.

Lemma anySubclassHandles_value (subclasses : list SubclassInfo) (i : nat) :
  value (anySubclassHandles handles query subclasses i) = existsb handles subclasses.
Proof.
  revert i. induction subclasses as [|info rest IH]; intros i; [reflexivity|].
  cbn [anySubclassHandles existsb]. rewrite value_bind.
  destruct (handles info); [reflexivity|apply IH].
Qed.

Lemma anySubclassHandles_first_match (pre : list SubclassInfo) (info : SubclassInfo)
    (post : list SubclassInfo) (i : nat) :
  (forall x, In x pre -> handles x = false) ->
  handles info = true ->
  anySubclassHandles handles query (pre ++ info :: post) i =
  (true, map query (seq i (S (List.length pre)))).
Proof.
  revert i. induction pre as [|x pre IH]; intros i Hpre Hinfo.
  - cbn. rewrite Hinfo. reflexivity.
  - cbn [app anySubclassHandles]. rewrite (Hpre x (or_introl eq_refl)).
    unfold bind, emit. rewrite IH; [reflexivity| |assumption].
    intros y Hy. apply Hpre. right. assumption.
Qed.

Lemma anySubclassHandles_no_match (subclasses : list SubclassInfo) (i : nat) :
  (forall x, In x subclasses -> handles x = false) ->
  anySubclassHandles handles query subclasses i =
  (false, map query (seq i (List.length subclasses))).
Proof.
  revert i. induction subclasses as [|x rest IH]; intros i Hall; [reflexivity|].
  cbn [anySubclassHandles]. rewrite (Hall x (or_introl eq_refl)).
  unfold bind, emit. rewrite IH; [reflexivity|].
  intros y Hy. apply Hall. right. assumption.
Qed.

End Scan.

(** C8, as the code has it.  [HandlesFilesWithExtension] and
    [HandlesMIMEType] return [false] for a null argument without asking any
    registered subclass.  For every other argument, the empty string
    included, the answer is [true] exactly when some registered subclass's
    own test accepts the argument; the subclasses are asked in registration
    order up to and including the first that accepts, and all of them when
    none does.  The registry itself has no rule for the empty string. *)
Theorem registry_queries_scan_in_order (subs : list SubclassInfo) :
  (HandlesFilesWithExtension subs None = (false, []) /\
   HandlesMIMEType subs None = (false, [])) /\
  (forall x : string,
     value (HandlesFilesWithExtension subs (Some x)) =
     existsb (fun info => mHandlesFilesWithExtension info (Some x)) subs /\
     value (HandlesMIMEType subs (Some x)) =
     existsb (fun info => mHandlesMIMEType info (Some x)) subs) /\
  (forall (x : string) pre info post,
     subs = pre ++ info :: post ->
     (forall y, In y pre -> mHandlesFilesWithExtension y (Some x) = false) ->
     mHandlesFilesWithExtension info (Some x) = true ->
     HandlesFilesWithExtension subs (Some x) =
     (true, map EvHandlesFilesWithExtension (seq 0 (S (List.length pre))))) /\
  (forall (x : string) pre info post,
     subs = pre ++ info :: post ->
     (forall y, In y pre -> mHandlesMIMEType y (Some x) = false) ->
     mHandlesMIMEType info (Some x) = true ->
     HandlesMIMEType subs (Some x) =
     (true, map EvHandlesMIMEType (seq 0 (S (List.length pre))))) /\
  (forall x : string,
     (forall y, In y subs -> mHandlesFilesWithExtension y (Some x) = false) ->
     HandlesFilesWithExtension subs (Some x) =
     (false, map EvHandlesFilesWithExtension (seq 0 (List.length subs)))) /\
  (forall x : string,
     (forall y, In y subs -> mHandlesMIMEType y (Some x) = false) ->
     HandlesMIMEType subs (Some x) =
     (false, map EvHandlesMIMEType (seq 0 (List.length subs)))).
Proof.
  unfold HandlesFilesWithExtension, HandlesMIMEType.
  split; [split; reflexivity|].
  split; [intros x; split; apply anySubclassHandles_value|].
  split; [intros x pre info post -> Hpre Hinfo;
          apply anySubclassHandles_first_match; assumption|].
  split; [intros x pre info post -> Hpre Hinfo;
          apply anySubclassHandles_first_match; assumption|].
  split; intros x Hall; apply anySubclassHandles_no_match; assumption.
Qed.

(** *** Null arguments and overloads *)

(** C9.  With a null input source the resolver returns null at once, for
    every MIME type and every error out-parameter: nothing is asked of the
    registry, no decoder is constructed, and the error is left as it was.
    The three [CreateDecoderForInputSourceRegion] overloads do the same for a
    null input source, and the three [CreateDecoderForDecoderRegion]
    overloads for a null decoder. *)
Theorem null_arguments_yield_null (subs : list SubclassInfo) (auto : bool)
    (mimeType : CFStringRef) (error : ErrorOut)
    (startingFrame frameCount repeatCount : Z) :
  CreateDecoderForInputSource subs auto None mimeType error = ((None, error), []) /\
  CreateDecoderForInputSourceRegion_1 subs auto None startingFrame error
    = ((None, error), []) /\
  CreateDecoderForInputSourceRegion_2 subs auto None startingFrame frameCount error
    = ((None, error), []) /\
  CreateDecoderForInputSourceRegion_3 subs auto None startingFrame frameCount repeatCount error
    = ((None, error), []) /\
  CreateDecoderForDecoderRegion_1 (InputSource := InputSource) (Impl := Impl)
    None startingFrame error = ((None, error), []) /\
  CreateDecoderForDecoderRegion_2 (InputSource := InputSource) (Impl := Impl)
    None startingFrame frameCount error = ((None, error), []) /\
  CreateDecoderForDecoderRegion_3 (InputSource := InputSource) (Impl := Impl)
    None startingFrame frameCount repeatCount error = ((None, error), []).
Proof. repeat split. Qed.

(** C10.  The overloads without a MIME type behave as the overloads with a
    MIME type called with a null one: same result, same error, same calls.
    With a null MIME type no subclass is asked about a MIME type. *)
Theorem overloads_without_mime_type (subs : list SubclassInfo) (auto : bool)
    (url : CFURL) (inputSource : option InputSource) (error : ErrorOut) :
  CreateDecoderForURL_2 subs auto url error = CreateDecoderForURL subs auto url None error /\
  CreateDecoderForInputSource_2 subs auto inputSource error =
  CreateDecoderForInputSource subs auto inputSource None error /\
  existsb isMIMEQuery (trace (CreateDecoderForInputSource_2 subs auto inputSource error)) = false.
Proof.
  split; [reflexivity|]. split; [reflexivity|].
  unfold CreateDecoderForInputSource_2.
  destruct inputSource as [src|]; [|reflexivity].
  assert (Hopening : avoidsOpening isMIMEQuery) by (repeat split).
  pose proof (openSourceIfAutomatic_avoids auto src error Hopening) as H0.
  destruct (value (openSourceIfAutomatic auto src error)) as [[ok s0] e0] eqn:E0.
  destruct ok.
  - rewrite (resolver_no_mime subs auto src error E0). cbn [trace snd].
    rewrite existsb_app, H0. cbn [orb].
    apply resolveByExtension_avoids; [assumption|reflexivity|reflexivity].
  - rewrite (resolver_source_fails subs auto src None error E0). exact H0.
Qed.

(** *** Which subclass the loop selects *)

Section Selection.

Variable auto : bool.
Variable handles : SubclassInfo -> bool.
Variable query : nat -> Event.

(** Without automatic opening the first subclass that handles the input
    wins, and the subclasses after it are not asked. *)
Lemma trySubclasses_first_unopened (pre : list SubclassInfo) (info : SubclassInfo)
    (post : list SubclassInfo) (i : nat) (inputSource : InputSource) (error : ErrorOut) :
  auto = false ->
  (forall x, In x pre -> handles x = false) ->
  handles info = true ->
  trySubclasses auto handles query (pre ++ info :: post) i inputSource error =
  ((inl (mCreateDecoder info inputSource), error),
   map query (seq i (List.length pre)) ++
   [query (List.length pre + i)%nat; EvCreateDecoder (List.length pre + i)%nat]).
Proof.
  intros Hauto Hpre Hinfo.
  rewrite trySubclasses_skip by assumption.
  rewrite trySubclasses_match_unopened by assumption. reflexivity.
Qed.

(** With automatic opening the first subclass that handles the input wins
    when its decoder opens. *)
Lemma trySubclasses_first_opened (pre : list SubclassInfo) (info : SubclassInfo)
    (post : list SubclassInfo) (i : nat) (inputSource : InputSource) (error : ErrorOut)
    (d : Decoder) (e : ErrorOut) :
  auto = true ->
  (forall x, In x pre -> handles x = false) ->
  handles info = true ->
  value (Open (mCreateDecoder info inputSource) error) = (true, d, e) ->
  value (trySubclasses auto handles query (pre ++ info :: post) i inputSource error) =
  (inl d, e).
Proof.
  intros Hauto Hpre Hinfo Hopen.
  rewrite trySubclasses_skip by assumption.
  erewrite trySubclasses_match_opened by eassumption. reflexivity.
Qed.

(** A decoder that the loop returns was constructed by a registered subclass
    that handles the input, and it opened if automatic opening is on. *)
Lemma trySubclasses_sound (subclasses : list SubclassInfo) (i : nat)
    (inputSource : InputSource) (error : ErrorOut) (d : Decoder) (e : ErrorOut) :
  value (trySubclasses auto handles query subclasses i inputSource error) = (inl d, e) ->
  exists info s0 e0,
    In info subclasses /\ handles info = true /\
    if auto then value (Open (mCreateDecoder info s0) e0) = (true, d, e)
    else d = mCreateDecoder info s0 /\ e = e0.
Proof.
  revert i inputSource error.
  induction subclasses as [|info rest IH]; intros i inputSource error H.
  - discriminate H.
  - cbn [trySubclasses] in H. rewrite value_bind in H.
    destruct (handles info) eqn:Hinfo.
    + rewrite value_bind in H. unfold AutomaticallyOpenDecoders in H.
      destruct auto eqn:Hauto; cbn [negb] in H.
      * rewrite value_bind in H.
        destruct (value (Open (mCreateDecoder info inputSource) error))
          as [[opened d'] e'] eqn:Hopen.
        destruct opened.
        -- inversion H; subst. exists info, inputSource, error.
           split; [left; reflexivity|]. split; assumption.
        -- destruct (IH _ _ _ H) as (info' & s0 & e0 & Hin & Hh & Hd).
           exists info', s0, e0. split; [right; assumption|]. split; assumption.
      * inversion H; subst. exists info, inputSource, e.
        split; [left; reflexivity|]. split; [assumption|]. split; reflexivity.
    + destruct (IH _ _ _ H) as (info' & s0 & e0 & Hin & Hh & Hd).
      exists info', s0, e0. split; [right; assumption|]. split; assumption.
Qed.

(** Which decoder the loop returns does not depend on the position it
    starts counting from. *)
Lemma trySubclasses_value_index (subclasses : list SubclassInfo) (i j : nat)
    (inputSource : InputSource) (error : ErrorOut) :
  value (trySubclasses auto handles query subclasses i inputSource error) =
  value (trySubclasses auto handles query subclasses j inputSource error).
Proof.
  revert i j inputSource error.
  induction subclasses as [|info rest IH]; intros i j inputSource error; [reflexivity|].
  cbn [trySubclasses]. rewrite !value_bind. cbn beta.
  destruct (handles info); [|apply IH].
  rewrite !value_bind. cbn beta. unfold AutomaticallyOpenDecoders.
  destruct auto; cbn [negb]; [|reflexivity].
  rewrite !value_bind.
  destruct (value (Open (mCreateDecoder info inputSource) error)) as [[opened d] e].
  destruct opened; [reflexivity|apply IH].
Qed.

(** When the scan of a first part of the list ends without a decoder, the
    scan of the whole list goes on through the rest with what the first part
    left. *)
Lemma trySubclasses_app_value (pre rest : list SubclassInfo) (i : nat)
    (inputSource : InputSource) (error : ErrorOut) (s1 : InputSource) (e1 : ErrorOut) :
  value (trySubclasses auto handles query pre i inputSource error) = (inr s1, e1) ->
  value (trySubclasses auto handles query (pre ++ rest) i inputSource error) =
  value (trySubclasses auto handles query rest (List.length pre + i) s1 e1).
Proof.
  revert i inputSource error.
  induction pre as [|info pre IH]; intros i inputSource error H.
  - cbn in H. injection H as <- <-. reflexivity.
  - cbn [app trySubclasses List.length] in *. rewrite value_bind in *. cbn beta in *.
    replace (S (List.length pre) + i)%nat with (List.length pre + S i)%nat by lia.
    destruct (handles info); [|apply IH; assumption].
    rewrite value_bind in *. cbn beta in *. unfold AutomaticallyOpenDecoders in *.
    destruct auto; cbn [negb] in *; [|discriminate H].
    rewrite value_bind in *.
    destruct (value (Open (mCreateDecoder info inputSource) error)) as [[opened d] e].
    destruct opened; [discriminate H|apply IH; assumption].
Qed.

(** A decoder that the loop returns is the decoder of a subclass that
    handles the input, reached after the scan of the subclasses before it
    ended without a decoder. *)
Lemma trySubclasses_found (subclasses : list SubclassInfo) (i : nat)
    (inputSource : InputSource) (error : ErrorOut) (d : Decoder) (e : ErrorOut) :
  value (trySubclasses auto handles query subclasses i inputSource error) = (inl d, e) ->
  exists pre info post s1 e1,
    subclasses = pre ++ info :: post /\
    value (trySubclasses auto handles query pre i inputSource error) = (inr s1, e1) /\
    handles info = true /\
    if auto then value (Open (mCreateDecoder info s1) e1) = (true, d, e)
    else d = mCreateDecoder info s1 /\ e = e1.
Proof.
  revert i inputSource error.
  induction subclasses as [|info rest IH]; intros i inputSource error H.
  - discriminate H.
  - cbn [trySubclasses] in H. rewrite value_bind in H. cbn beta in H.
    destruct (handles info) eqn:Hinfo.
    + rewrite value_bind in H. cbn beta in H. unfold AutomaticallyOpenDecoders in H.
      destruct auto eqn:Hauto; cbn [negb] in H.
      * rewrite value_bind in H.
        destruct (value (Open (mCreateDecoder info inputSource) error))
          as [[opened d'] e'] eqn:Hopen.
        destruct opened.
        -- injection H as <- <-. exists [], info, rest, inputSource, error.
           split; [reflexivity|]. split; [reflexivity|]. split; assumption.
        -- destruct (IH _ _ _ H) as (pre & info' & post & s1 & e1 & -> & Hpre & Hh & Hd).
           exists (info :: pre), info', post, s1, e1.
           split; [reflexivity|]. split; [|split; assumption].
           cbn [trySubclasses]. rewrite value_bind. cbn beta. rewrite Hinfo.
           rewrite value_bind. cbn beta. unfold AutomaticallyOpenDecoders. cbn [negb].
           rewrite value_bind, Hopen. exact Hpre.
      * injection H as <- <-. exists [], info, rest, inputSource, error.
        split; [reflexivity|]. split; [reflexivity|]. split; [assumption|].
        split; reflexivity.
    + destruct (IH _ _ _ H) as (pre & info' & post & s1 & e1 & -> & Hpre & Hh & Hd).
      exists (info :: pre), info', post, s1, e1.
      split; [reflexivity|]. split; [|split; assumption].
      cbn [trySubclasses]. rewrite value_bind. cbn beta. rewrite Hinfo. exact Hpre.
Qed.

(** The loop returns a decoder exactly when it selects it. *)
Lemma trySubclasses_selects (subclasses : list SubclassInfo)
    (inputSource : InputSource) (error : ErrorOut) (d : Decoder) (e : ErrorOut) :
  value (trySubclasses auto handles query subclasses 0 inputSource error) = (inl d, e) <->
  selects auto handles query subclasses inputSource error d e.
Proof.
  unfold selects. split.
  - apply trySubclasses_found.
  - intros (pre & info & post & s1 & e1 & -> & Hpre & Hinfo & Hd).
    rewrite (trySubclasses_app_value _ _ _ _ _ Hpre).
    destruct auto eqn:Hauto.
    + rewrite (trySubclasses_match_opened _ _ _ _ _ _ _ eq_refl Hinfo Hd). reflexivity.
    + destruct Hd as [-> ->].
      rewrite (trySubclasses_match_unopened _ _ _ _ _ _ _ eq_refl Hinfo). reflexivity.
Qed.

(** Without automatic opening the loop ends without a decoder only when no
    subclass handles the input, and then with the source and error it
    started with. *)
Lemma trySubclasses_unopened_exhausted (subclasses : list SubclassInfo) (i : nat)
    (inputSource : InputSource) (error : ErrorOut) (s1 : InputSource) (e1 : ErrorOut) :
  auto = false ->
  value (trySubclasses auto handles query subclasses i inputSource error) = (inr s1, e1) ->
  existsb handles subclasses = false /\ s1 = inputSource /\ e1 = error.
Proof.
  intros Hauto. revert i.
  induction subclasses as [|info rest IH]; intros i H.
  - cbn in H. injection H as <- <-. repeat split.
  - cbn [trySubclasses] in H. rewrite value_bind in H. cbn beta in H.
    cbn [existsb]. destruct (handles info).
    + rewrite value_bind in H. cbn beta in H. unfold AutomaticallyOpenDecoders in H.
      rewrite Hauto in H. discriminate H.
    + apply (IH _ H).
Qed.

End Selection.

Lemma avoidsOpening_isExtensionQuery : avoidsOpening isExtensionQuery.
Proof. repeat split. Qed.

Lemma avoidsOpening_isMIMEQuery : avoidsOpening isMIMEQuery.
Proof. repeat split. Qed.

Lemma avoidsOpening_isSourceClose : avoidsOpening isSourceClose.
Proof. repeat split. Qed.

(** *** The resolver *)

(** C2, as the code has it.  When a MIME type is supplied, the registered
    subclasses are asked about the MIME type, in registration order, before
    any is asked about the extension.
    - The calls of a resolution split in two parts: no question about an
      extension in the first, no question about a MIME type in the second.
    - Without automatic opening, the first subclass that handles the MIME
      type is selected: its decoder is returned as constructed on the
      source, and no question about an extension is asked.
    - With automatic opening, once the source is open, the subclass selected
      is the first, in registration order, that handles the MIME type and
      whose decoder opens: the first that handles the MIME type when its
      decoder opens, and in general the one reached after the scan of the
      subclasses before it ended without a decoder.
    - The scan by MIME type yields a decoder exactly when it selects it in
      this sense; that decoder is the result, it is the decoder of a subclass
      that handles the MIME type, and no question about an extension is
      asked.
    - A question about an extension is asked only when the scan by MIME type
      ran to its end without returning a decoder; without automatic opening
      that happens only when no subclass handles the MIME type.
    - When automatic opening cannot open the source nothing is selected and
      no subclass is asked. *)
Theorem mime_type_precedes_extension (subs : list SubclassInfo) (auto : bool)
    (inputSource : InputSource) (mimeType : string) (error : ErrorOut) :
  let r := CreateDecoderForInputSource subs auto (Some inputSource) (Some mimeType) error in
  let handlesMIME := fun info : SubclassInfo => mHandlesMIMEType info (Some mimeType) in
  (exists t1 t2, trace r = t1 ++ t2 /\
                 existsb isExtensionQuery t1 = false /\ existsb isMIMEQuery t2 = false) /\
  (forall pre info post,
     auto = false ->
     subs = pre ++ info :: post ->
     (forall x, In x pre -> handlesMIME x = false) ->
     handlesMIME info = true ->
     value r = (Some (mCreateDecoder info inputSource), error) /\
     existsb isExtensionQuery (trace r) = false) /\
  (forall pre info post s0 e0 d e,
     auto = true ->
     value (ensureSourceOpen inputSource error) = (true, s0, e0) ->
     subs = pre ++ info :: post ->
     (forall x, In x pre -> handlesMIME x = false) ->
     handlesMIME info = true ->
     value (Open (mCreateDecoder info s0) e0) = (true, d, e) ->
     value r = (Some d, e) /\ existsb isExtensionQuery (trace r) = false) /\
  (forall s0 e0 d e,
     value (openSourceIfAutomatic auto inputSource error) = (true, s0, e0) ->
     value (tryMIMEType subs auto (Some mimeType) s0 e0) = (inl d, e) ->
     value r = (Some d, e) /\ existsb isExtensionQuery (trace r) = false /\
     selects auto handlesMIME EvHandlesMIMEType subs s0 e0 d e) /\
  (forall s0 e0 d e,
     value (openSourceIfAutomatic auto inputSource error) = (true, s0, e0) ->
     selects auto handlesMIME EvHandlesMIMEType subs s0 e0 d e ->
     value r = (Some d, e) /\ existsb isExtensionQuery (trace r) = false) /\
  (existsb isExtensionQuery (trace r) = true ->
   exists s0 e0 s1 e1,
     value (openSourceIfAutomatic auto inputSource error) = (true, s0, e0) /\
     value (tryMIMEType subs auto (Some mimeType) s0 e0) = (inr s1, e1) /\
     (auto = false -> existsb handlesMIME subs = false)) /\
  (forall s0 e0,
     value (openSourceIfAutomatic auto inputSource error) = (false, s0, e0) ->
     value r = (None, e0) /\ existsb isRegistryEvent (trace r) = false).
Proof.
  intros r handlesMIME.
  pose proof (openSourceIfAutomatic_avoids auto inputSource error
                avoidsOpening_isExtensionQuery) as H0.
  assert (Hmime : forall s0 e0,
            existsb isExtensionQuery
              (trace (tryMIMEType subs auto (Some mimeType) s0 e0)) = false).
  { intros. apply tryMIMEType_avoids;
      [exact avoidsOpening_isExtensionQuery|reflexivity|reflexivity]. }
  assert (Hfound : forall s0 e0 d e,
            value (openSourceIfAutomatic auto inputSource error) = (true, s0, e0) ->
            value (tryMIMEType subs auto (Some mimeType) s0 e0) = (inl d, e) ->
            value r = (Some d, e) /\ existsb isExtensionQuery (trace r) = false).
  { intros s0 e0 d e E0 E1. subst r.
    rewrite (resolver_mime_found subs auto inputSource mimeType error E0 E1).
    cbn [value trace fst snd]. rewrite existsb_app, H0, Hmime. split; reflexivity. }
  split; [|split; [|split; [|split; [|split; [|split]]]]].
  - destruct (value (openSourceIfAutomatic auto inputSource error))
      as [[ok s0] e0] eqn:E0.
    destruct ok.
    + destruct (value (tryMIMEType subs auto (Some mimeType) s0 e0))
        as [[d|s1] e1] eqn:E1.
      * exists (trace r), []. rewrite app_nil_r.
        split; [reflexivity|]. split; [|reflexivity].
        apply (Hfound s0 e0 d e1 eq_refl E1).
      * exists (trace (openSourceIfAutomatic auto inputSource error) ++
                trace (tryMIMEType subs auto (Some mimeType) s0 e0)),
               (trace (resolveByExtension subs auto s1 e1)).
        subst r.
        rewrite (resolver_mime_exhausted subs auto inputSource mimeType error E0 E1).
        cbn [trace snd]. rewrite app_assoc. split; [reflexivity|].
        rewrite existsb_app, H0, Hmime. split; [reflexivity|].
        apply resolveByExtension_avoids;
          [exact avoidsOpening_isMIMEQuery|reflexivity|reflexivity].
    + exists (trace r), []. rewrite app_nil_r.
      split; [reflexivity|]. split; [|reflexivity]. subst r.
      rewrite (resolver_source_fails subs auto inputSource (Some mimeType) error E0).
      exact H0.
  - intros pre info post Hauto Hsubs Hpre Hinfo.
    apply (Hfound inputSource error).
    + rewrite Hauto. reflexivity.
    + unfold tryMIMEType. rewrite Hsubs.
      rewrite trySubclasses_first_unopened by assumption. reflexivity.
  - intros pre info post s0 e0 d e Hauto Hsource Hsubs Hpre Hinfo Hopen.
    apply (Hfound s0 e0).
    + rewrite Hauto. exact Hsource.
    + unfold tryMIMEType. rewrite Hsubs.
      apply trySubclasses_first_opened; assumption.
  - intros s0 e0 d e E0 E1. destruct (Hfound s0 e0 d e E0 E1) as [Hv Ht].
    split; [assumption|]. split; [assumption|].
    apply trySubclasses_selects. exact E1.
  - intros s0 e0 d e E0 Hselects. apply (Hfound s0 e0 d e E0).
    unfold tryMIMEType. apply trySubclasses_selects. exact Hselects.
  - intros Hext.
    destruct (value (openSourceIfAutomatic auto inputSource error))
      as [[ok s0] e0] eqn:E0.
    destruct ok.
    + destruct (value (tryMIMEType subs auto (Some mimeType) s0 e0))
        as [[d|s1] e1] eqn:E1.
      * destruct (Hfound s0 e0 d e1 eq_refl E1) as [_ Hno].
        rewrite Hno in Hext. discriminate Hext.
      * exists s0, e0, s1, e1. split; [reflexivity|]. split; [exact E1|].
        intros Hauto. unfold tryMIMEType in E1.
        apply (trySubclasses_unopened_exhausted _ _ _ _ _ _ Hauto E1).
    + subst r.
      rewrite (resolver_source_fails subs auto inputSource (Some mimeType) error E0) in Hext.
      cbn [trace snd] in Hext. rewrite H0 in Hext. discriminate Hext.
  - intros s0 e0 E0. subst r.
    rewrite (resolver_source_fails subs auto inputSource (Some mimeType) error E0).
    split; [reflexivity|]. cbn [trace snd].
    apply openSourceIfAutomatic_avoids. repeat split.
Qed.

(** C3.  Both scans of the resolver are the same loop over the registered
    subclasses.  With automatic opening, when the decoder of a subclass that
    handles the input fails to open, the loop goes on with the subclasses
    after it, in registration order, holding the source that the failed
    decoder held; so the next subclass that handles the input constructs its
    decoder on that source.  When the scan by MIME type has run to its end,
    the resolver enters the resolution by extension with the source and error
    the scan left, and that resolution runs the same loop.  The resolver
    never closes a source. *)
Theorem failed_open_reclaims_source (subs : list SubclassInfo) :
  (forall mimeType inputSource error,
     tryMIMEType subs true mimeType inputSource error =
     trySubclasses true (fun info => mHandlesMIMEType info mimeType)
                   EvHandlesMIMEType subs 0 inputSource error) /\
  (forall pathExtension inputSource error,
     tryExtension subs true pathExtension inputSource error =
     trySubclasses true (fun info => mHandlesFilesWithExtension info pathExtension)
                   EvHandlesFilesWithExtension subs 0 inputSource error) /\
  (forall (handles : SubclassInfo -> bool) query info rest i inputSource error d e,
     handles info = true ->
     value (Open (mCreateDecoder info inputSource) error) = (false, d, e) ->
     trySubclasses true handles query (info :: rest) i inputSource error =
     (value (trySubclasses true handles query rest (S i) (mInputSource d) e),
      query i :: EvCreateDecoder i :: trace (Open (mCreateDecoder info inputSource) error)
      ++ trace (trySubclasses true handles query rest (S i) (mInputSource d) e))) /\
  (forall (handles : SubclassInfo -> bool) query pre info mid info' post i
          inputSource error d e d' e',
     (forall x, In x pre -> handles x = false) ->
     handles info = true ->
     value (Open (mCreateDecoder info inputSource) error) = (false, d, e) ->
     (forall x, In x mid -> handles x = false) ->
     handles info' = true ->
     value (Open (mCreateDecoder info' (mInputSource d)) e) = (true, d', e') ->
     value (trySubclasses true handles query (pre ++ info :: mid ++ info' :: post) i
                          inputSource error) = (inl d', e')) /\
  (forall inputSource (mimeType : string) error s0 e0 s1 e1,
     value (ensureSourceOpen inputSource error) = (true, s0, e0) ->
     value (tryMIMEType subs true (Some mimeType) s0 e0) = (inr s1, e1) ->
     value (CreateDecoderForInputSource subs true (Some inputSource) (Some mimeType) error) =
     value (resolveByExtension subs true s1 e1) /\
     forall url pathExtension,
       InputSource_GetURL s1 = Some url ->
       CFURLCopyPathExtension url = Some pathExtension ->
       value (resolveByExtension subs true s1 e1) =
       (match fst (value (tryExtension subs true (Some pathExtension) s1 e1)) with
        | inl decoder => Some decoder
        | inr _ => None
        end,
        snd (value (tryExtension subs true (Some pathExtension) s1 e1)))) /\
  (forall auto inputSource mimeType error,
     existsb isSourceClose
       (trace (CreateDecoderForInputSource subs auto inputSource mimeType error)) = false).
Proof.
  split; [reflexivity|]. split; [reflexivity|].
  split; [|split; [|split]].
  - intros handles query info rest i inputSource error d e Hinfo Hopen.
    apply trySubclasses_match_failed; [reflexivity|assumption|assumption].
  - intros handles query pre info mid info' post i inputSource error d e d' e'
           Hpre Hinfo Hfail Hmid Hinfo' Hopen.
    rewrite trySubclasses_skip by assumption. cbn [value fst].
    rewrite (trySubclasses_match_failed handles query info (mid ++ info' :: post)
               (List.length pre + i) inputSource error eq_refl Hinfo Hfail).
    cbn [value fst].
    apply trySubclasses_first_opened; [reflexivity|assumption|assumption|assumption].
  - intros inputSource mimeType error s0 e0 s1 e1 E0 E1. split.
    + rewrite (resolver_mime_exhausted subs true inputSource mimeType error E0 E1).
      reflexivity.
    + intros url pathExtension Hurl Hext. unfold resolveByExtension.
      rewrite Hurl, Hext, value_bind.
      destruct (value (tryExtension subs true (Some pathExtension) s1 e1)) as [[d|s] e];
        reflexivity.
  - intros auto inputSource mimeType error.
    apply resolver_avoids; [exact avoidsOpening_isSourceClose|reflexivity..].
Qed.

(** C6, as the code has it.  Let the resolution reach the step by extension
    (no MIME type was supplied, or the scan by MIME type ran to its end),
    holding the source [s1] and the error [e1].  If the source has no
    locator, the resolver returns no decoder and leaves the error as it is:
    no error is stored.  If the locator has no path extension, the resolver
    returns no decoder and stores the "Unknown file type" error when the
    caller supplied an error out-parameter. *)
Theorem unknown_file_type_error (subs : list SubclassInfo) (auto : bool)
    (inputSource : InputSource) (mimeType : CFStringRef) (error : ErrorOut)
    (s0 : InputSource) (e0 : ErrorOut) (s1 : InputSource) (e1 : ErrorOut) :
  value (openSourceIfAutomatic auto inputSource error) = (true, s0, e0) ->
  (mimeType = None /\ s1 = s0 /\ e1 = e0) \/
  (exists m, mimeType = Some m /\
             value (tryMIMEType subs auto (Some m) s0 e0) = (inr s1, e1)) ->
  let r := CreateDecoderForInputSource subs auto (Some inputSource) mimeType error in
  (InputSource_GetURL s1 = None -> value r = (None, e1)) /\
  (forall url,
     InputSource_GetURL s1 = Some url ->
     CFURLCopyPathExtension url = None ->
     value r = (None, storeError e1 (unknownFileTypeError url)) /\
     errFailureReason (unknownFileTypeError url) = "Unknown file type"%string /\
     (forall slot, e1 = Some slot ->
                   snd (value r) = Some (Some (unknownFileTypeError url))) /\
     (e1 = None -> snd (value r) = None)).
Proof.
  intros E0 Hreach r.
  assert (Hr : value r = value (resolveByExtension subs auto s1 e1)).
  { subst r. destruct Hreach as [(-> & -> & ->)|(m & -> & E1)].
    - rewrite (resolver_no_mime subs auto inputSource error E0). reflexivity.
    - rewrite (resolver_mime_exhausted subs auto inputSource m error E0 E1).
      reflexivity. }
  rewrite Hr. unfold resolveByExtension. split.
  - intros Hurl. rewrite Hurl. reflexivity.
  - intros url Hurl Hext. rewrite Hurl, Hext. cbn [value ret fst snd].
    split; [reflexivity|]. split; [reflexivity|].
    split; [intros slot ->; reflexivity|intros ->; reflexivity].
Qed.

End Properties.

(** * Further properties of the lifecycle *)

Section Lifecycle.

Context {CFURL InputSource Impl AudioBufferList : Type}.
Context {sourceOps : InputSourceOps CFURL InputSource}.
Context {hooks : DecoderHooks CFURL InputSource Impl AudioBufferList}.

Local Abbreviation ErrorOut := (ErrorOut CFURL).
Local Abbreviation Decoder := (@Decoder InputSource Impl).

Ltac run :=
  unfold bind, ret, emit, logInfo, logWarning, value, trace in *; simpl in *.

Lemma Open_state_is_result (d : Decoder) (error : ErrorOut) :
  IsOpen (snd (fst (value (Open d error)))) = fst (fst (value (Open d error))).
Proof.
  unfold Open, ensureSourceOpen, IsOpen.
  destruct (mIsOpen d) eqn:Hstate; run; [first [reflexivity|assumption]|].
  destruct (InputSource_IsOpen (mInputSource d)); run.
  - destruct (_Open (mImpl d) (mInputSource d) error) as [[[result impl] src] e].
    destruct result; simpl;  [reflexivity|first [reflexivity|assumption]].
  - destruct (InputSource_Open (mInputSource d) error) as [[opened src] e].
    destruct opened; simpl; [|first [reflexivity|assumption]].
    destruct (_Open (mImpl d) src e) as [[[result impl] src'] e'].
    destruct result; simpl;  [reflexivity|first [reflexivity|assumption]].
Qed.

(** X1.  [Open] returns [true] exactly when the decoder is Open afterwards,
    whatever state it was in before. *)
Theorem Open_returns_whether_open (d : Decoder) (error : ErrorOut) :
  IsOpen (snd (fst (value (Open d error)))) = fst (fst (value (Open d error))).
Proof. apply Open_state_is_result. Qed.

(** X2.  When a Closed decoder's source is not open and cannot be opened,
    [Open] returns [false] with the error the source left; the decoder stays
    Closed, keeps the state of its subclass, and its open hook is not
    called. *)
Theorem Open_fails_when_source_fails (d : Decoder) (error : ErrorOut)
    (inputSource : InputSource) (e : ErrorOut) :
  IsOpen d = false ->
  InputSource_IsOpen (mInputSource d) = false ->
  InputSource_Open (mInputSource d) error = (false, inputSource, e) ->
  Open d error =
  ((false, {| mInputSource := inputSource; mIsOpen := false; mImpl := mImpl d |}, e),
   [EvSourceOpen]).
Proof.
  unfold Open, ensureSourceOpen, IsOpen. intros Hstate Hsource Hopen.
  rewrite Hstate, Hsource. run. rewrite Hopen. reflexivity.
Qed.

(** X3.  A Closed decoder opens exactly when its source is open, or opens,
    and the open hook succeeds on it: [Open] asks the source to open only if
    it is not open yet, calls the hook only on an open source, and returns
    the hook's result. *)
Theorem Open_on_closed_decoder (d : Decoder) (error : ErrorOut)
    (ready : bool) (s0 : InputSource) (e0 : ErrorOut) :
  IsOpen d = false ->
  (if InputSource_IsOpen (mInputSource d) then (true, mInputSource d, error)
   else InputSource_Open (mInputSource d) error) = (ready, s0, e0) ->
  fst (fst (value (Open d error))) =
  ready && fst (fst (fst (_Open (mImpl d) s0 e0))) /\
  existsb isSourceOpen (trace (Open d error)) = negb (InputSource_IsOpen (mInputSource d)) /\
  existsb isHook (trace (Open d error)) = ready.
Proof.
  unfold Open, ensureSourceOpen, IsOpen. intros Hstate Hready. rewrite Hstate.
  destruct (InputSource_IsOpen (mInputSource d)); run.
  - injection Hready as <- <- <-.
    destruct (_Open (mImpl d) (mInputSource d) error) as [[[result impl] src] e].
    simpl. repeat split.
  - rewrite Hready. destruct ready; simpl.
    + destruct (_Open (mImpl d) s0 e0) as [[[result impl] src] e].
      simpl. repeat split.
    + repeat split.
Qed.

(** X4.  [Open] never closes anything and [Close] never opens anything:
    neither the source nor a hook of the other direction is called. *)
Theorem Open_and_Close_do_not_cross (d : Decoder) (error : ErrorOut) :
  existsb isClosingCall (trace (Open d error)) = false /\
  existsb isOpeningCall (trace (Close d error)) = false.
Proof.
  unfold Open, Close, ensureSourceOpen, IsOpen. split.
  - destruct (mIsOpen d); run; [reflexivity|].
    destruct (InputSource_IsOpen (mInputSource d)); run.
    + destruct (_Open (mImpl d) (mInputSource d) error) as [[[result impl] src] e].
      reflexivity.
    + destruct (InputSource_Open (mInputSource d) error) as [[opened src] e].
      destruct opened; simpl; [|reflexivity].
      destruct (_Open (mImpl d) src e) as [[[result impl] src'] e']. reflexivity.
  - destruct (mIsOpen d); run; [|reflexivity].
    destruct (_Close (mImpl d) (mInputSource d) error) as [[[result impl] src] e].
    destruct (InputSource_Close src e) as [[closed src'] e'].
    destruct closed; reflexivity.
Qed.

Lemma Close_success_state (d : Decoder) (error : ErrorOut) :
  fst (fst (value (Close d error))) = true ->
  IsOpen (snd (fst (value (Close d error)))) = false.
Proof.
  unfold Close, IsOpen. destruct (mIsOpen d) eqn:Hstate; run.
  - destruct (_Close (mImpl d) (mInputSource d) error) as [[[result impl] src] e].
    destruct (InputSource_Close src e) as [[closed src'] e'].
    destruct closed, result; simpl; intros H; try discriminate H; reflexivity.
  - intros _. first [reflexivity|assumption].
Qed.

(** X5.  When [Close] returns [true] the decoder is Closed afterwards. *)
Theorem Close_true_means_closed (d : Decoder) (error : ErrorOut) :
  fst (fst (value (Close d error))) = true ->
  IsOpen (snd (fst (value (Close d error)))) = false.
Proof. apply Close_success_state. Qed.

(** X6.  Only [Open] and [Close] change the state: after [ReadAudio] and
    after [SeekToFrame], with any arguments, the decoder is Open exactly when
    it was before. *)
Theorem reading_and_seeking_keep_the_state (d : Decoder)
    (bufferList : option AudioBufferList) (frameCount frame : Z) :
  IsOpen (snd (fst (value (ReadAudio d bufferList frameCount)))) = IsOpen d /\
  IsOpen (snd (value (SeekToFrame d frame))) = IsOpen d.
Proof.
  unfold ReadAudio, SeekToFrame, GetTotalFrames, IsOpen. split.
  - destruct (mIsOpen d) eqn:Hstate; run; [|first [reflexivity|assumption]].
    destruct bufferList as [buffer|]; run; [|first [reflexivity|assumption]].
    destruct (frameCount =? 0)%Z; run; [first [reflexivity|assumption]|].
    destruct (_ReadAudio (mImpl d) (mInputSource d) buffer frameCount)
      as [[[n impl] src] b].
    reflexivity.
  - destruct (mIsOpen d) eqn:Hstate; run; [|first [reflexivity|assumption]].
    destruct (0 >? frame)%Z; run; [first [reflexivity|assumption]|].
    destruct (frame >=? _GetTotalFrames (mImpl d) (mInputSource d))%Z; run;
      [first [reflexivity|assumption]|].
    destruct (_SeekToFrame (mImpl d) (mInputSource d) frame) as [[n impl] src].
    simpl. first [reflexivity|assumption].
Qed.

(** X7.  What the read hook can rely on: [ReadAudio] calls it only on an
    Open decoder, with a buffer that is not null and with the caller's frame
    count, which is not zero; under exactly these conditions it is called
    once and its result is returned.  No other hook is called. *)
Theorem read_hook_contract (d : Decoder) (bufferList : option AudioBufferList)
    (frameCount : Z) :
  (forall e, In e (trace (ReadAudio d bufferList frameCount)) -> isHook e = true ->
             e = EvHook (HReadAudio frameCount) /\
             IsOpen d = true /\ bufferList <> None /\ frameCount <> 0%Z) /\
  (forall buffer,
     IsOpen d = true -> bufferList = Some buffer -> frameCount <> 0%Z ->
     forall framesRead impl inputSource buffer',
       _ReadAudio (mImpl d) (mInputSource d) buffer frameCount =
       (framesRead, impl, inputSource, buffer') ->
       ReadAudio d bufferList frameCount =
       ((framesRead, {| mInputSource := inputSource; mIsOpen := true; mImpl := impl |},
         Some buffer'),
        [EvHook (HReadAudio frameCount)])).
Proof.
  unfold ReadAudio, IsOpen. split.
  - destruct (mIsOpen d) eqn:Hstate; run.
    + destruct bufferList as [buffer|]; run.
      * destruct (frameCount =? 0)%Z eqn:Hcount; run.
        -- intros e [<-|[]] H. discriminate H.
        -- destruct (_ReadAudio (mImpl d) (mInputSource d) buffer frameCount)
             as [[[n impl] src] b].
           simpl. intros e [<-|[]] _.
           split; [reflexivity|]. split; [reflexivity|].
           split; [discriminate|]. apply Z.eqb_neq. assumption.
      * intros e [<-|[]] H. discriminate H.
    + intros e [<-|[]] H. discriminate H.
  - intros buffer Hstate -> Hcount framesRead impl inputSource buffer' Hhook.
    rewrite Hstate. apply Z.eqb_neq in Hcount. run.
    rewrite Hcount, Hhook. reflexivity.
Qed.

(** X8.  What the seek hook can rely on: [SeekToFrame] calls it only on an
    Open decoder, with the caller's frame, and only when that frame is at
    least 0 and below what the total-frames hook returns.  With a negative
    frame no hook at all is called. *)
Theorem seek_hook_contract (d : Decoder) (frame : Z) :
  (forall f, In (EvHook (HSeekToFrame f)) (trace (SeekToFrame d frame)) ->
             f = frame /\ IsOpen d = true /\
             (0 <= frame < _GetTotalFrames (mImpl d) (mInputSource d))%Z) /\
  ((frame < 0)%Z -> existsb isHook (trace (SeekToFrame d frame)) = false).
Proof.
  unfold SeekToFrame, GetTotalFrames, IsOpen. split.
  - intros f. destruct (mIsOpen d) eqn:Hstate; run.
    + destruct (0 >? frame)%Z eqn:Hneg; run.
      * intros [H|[]]. discriminate H.
      * destruct (frame >=? _GetTotalFrames (mImpl d) (mInputSource d))%Z eqn:Hhigh; run.
        -- intros [H|[H|[]]]; discriminate H.
        -- destruct (_SeekToFrame (mImpl d) (mInputSource d) frame) as [[n impl] src].
           simpl. intros [H|[H|[]]]; [discriminate H|].
           inversion H; subst. split; [reflexivity|]. split; [reflexivity|].
           rewrite Z.gtb_ltb in Hneg. apply Z.ltb_ge in Hneg.
           rewrite Z.geb_leb in Hhigh. apply Z.leb_gt in Hhigh. lia.
    + intros [H|[]]. discriminate H.
  - intros Hneg. destruct (mIsOpen d); run; [|reflexivity].
    assert (H : (0 >? frame)%Z = true) by (rewrite Z.gtb_ltb; apply Z.ltb_lt; lia).
    rewrite H. reflexivity.
Qed.

(** X9.  How the operations compose.  After an [Open] that returned [true],
    a second [Open] returns [true] and does nothing but log.  After an [Open]
    that returned [false], and after a [Close] that returned [true], a
    [Close] returns [true] and does nothing but log. *)
Theorem lifecycle_calls_compose (d : Decoder) (error error' : ErrorOut) :
  let opened := fst (value (Open d error)) in
  let closed := fst (value (Close d error)) in
  (fst opened = true ->
   Open (snd opened) error' =
   ((true, snd opened, error'),
    [EvLog LogInfo "Open() called on a Decoder that is already open"])) /\
  (fst opened = false ->
   Close (snd opened) error' =
   ((true, snd opened, error'),
    [EvLog LogInfo "Close() called on a Decoder that hasn't been opened"])) /\
  (fst closed = true ->
   Close (snd closed) error' =
   ((true, snd closed, error'),
    [EvLog LogInfo "Close() called on a Decoder that hasn't been opened"])).
Proof.
  intros opened closed.
  pose proof (Open_state_is_result d error) as Hopen.
  pose proof (Close_success_state d error) as Hclose.
  fold opened in Hopen. fold closed in Hclose.
  split; [|split].
  - intros H. rewrite H in Hopen. unfold Open at 1. rewrite Hopen. reflexivity.
  - intros H. rewrite H in Hopen. unfold Close at 1. rewrite Hopen. reflexivity.
  - intros H. specialize (Hclose H). unfold Close at 1. rewrite Hclose. reflexivity.
Qed.

End Lifecycle.

(** * Further properties of the registry and the resolver *)

Section Resolution.

Context {CFURL InputSource Impl AudioBufferList : Type}.
Context {sourceOps : InputSourceOps CFURL InputSource}.
Context {hooks : DecoderHooks CFURL InputSource Impl AudioBufferList}.

Local Abbreviation ErrorOut := (ErrorOut CFURL).
Local Abbreviation Decoder := (@Decoder InputSource Impl).
Local Abbreviation SubclassInfo := (@SubclassInfo InputSource Impl).

Variable subs : list SubclassInfo.

(** A list on which a test succeeds splits at the first element that passes. *)
Lemma existsb_first (A : Type) (f : A -> bool) (l : list A) :
  existsb f l = true ->
  exists pre x post,
    l = pre ++ x :: post /\ (forall y, In y pre -> f y = false) /\ f x = true.
Proof.
  induction l as [|a l IH]; intros H; [discriminate H|].
  cbn [existsb] in H. destruct (f a) eqn:Ha.
  - exists [], a, l. split; [reflexivity|]. split; [intros y []|assumption].
  - destruct (IH H) as (pre & x & post & -> & Hpre & Hx).
    exists (a :: pre), x, post. split; [reflexivity|]. split; [|assumption].
    intros y [<-|Hy]; [assumption|apply Hpre; assumption].
Qed.

Lemma existsb_none (A : Type) (f : A -> bool) (l : list A) :
  existsb f l = false -> forall y, In y l -> f y = false.
Proof.
  intros H y Hy. destruct (f y) eqn:Hf; [|reflexivity].
  rewrite <- H. symmetry. apply existsb_exists. exists y. split; assumption.
Qed.

(** When no subclass handles the input the loop asks each of them once and
    ends with the source and the error it started with. *)
Lemma trySubclasses_none (auto : bool) (handles : SubclassInfo -> bool)
    (query : nat -> Event) (l : list SubclassInfo) (i : nat)
    (inputSource : InputSource) (error : ErrorOut) :
  existsb handles l = false ->
  trySubclasses auto handles query l i inputSource error =
  ((inr inputSource, error), map query (seq i (List.length l))).
Proof.
  intros H. pose proof (existsb_none _ _ H) as Hall.
  rewrite <- (app_nil_r l) at 1.
  rewrite (trySubclasses_skip auto handles query l [] i inputSource error Hall).
  cbn. rewrite app_nil_r. reflexivity.
Qed.

(** Without automatic opening the loop only asks and constructs, and it
    constructs once exactly when it returns a decoder. *)
Lemma trySubclasses_unopened_trace (handles : SubclassInfo -> bool) (query : nat -> Event) :
  (forall j, isRegistryEvent (query j) = true) ->
  (forall j, isCreateDecoder (query j) = false) ->
  forall l i inputSource error,
    forallb isRegistryEvent
      (trace (trySubclasses false handles query l i inputSource error)) = true /\
    List.length (filter isCreateDecoder
                   (trace (trySubclasses false handles query l i inputSource error))) =
    match fst (value (trySubclasses false handles query l i inputSource error)) with
    | inl _ => 1%nat
    | inr _ => 0%nat
    end.
Proof.
  intros Hquery Hcreate. induction l as [|info rest IH]; intros i inputSource error.
  - split; reflexivity.
  - cbn [trySubclasses]. destruct (handles info).
    + unfold AutomaticallyOpenDecoders, bind, emit, ret, trace, value. cbn.
      rewrite Hquery, Hcreate. split; reflexivity.
    + rewrite trace_bind, value_bind. cbn [emit trace value fst snd app].
      cbn [forallb filter]. rewrite Hquery, Hcreate.
      apply IH.
Qed.

(** A decoder that the resolution by extension returns comes from the loop
    run with the path extension of the locator of the source. *)
Lemma resolveByExtension_found (auto : bool) (inputSource : InputSource)
    (error : ErrorOut) (d : Decoder) (e : ErrorOut) :
  value (resolveByExtension subs auto inputSource error) = (Some d, e) ->
  exists (url : CFURL) (pathExtension : string),
    InputSource_GetURL inputSource = Some url /\
    CFURLCopyPathExtension url = Some pathExtension /\
    value (tryExtension subs auto (Some pathExtension) inputSource error) = (inl d, e).
Proof.
  unfold resolveByExtension.
  destruct (InputSource_GetURL inputSource) as [url|]; [|discriminate].
  destruct (CFURLCopyPathExtension url) as [ext|] eqn:Hext; [|discriminate].
  rewrite value_bind.
  destruct (value (tryExtension subs auto (Some ext) inputSource error))
    as [[d'|s] e'] eqn:E; [|discriminate].
  intros H. inversion H; subst. exists url, ext.
  split; [reflexivity|]. split; [exact Hext|exact E].
Qed.

(** Where a decoder that the resolver returns comes from. *)
Lemma resolver_sound (auto : bool) (inputSource : option InputSource)
    (mimeType : CFStringRef) (error : ErrorOut) (d : Decoder) (e : ErrorOut) :
  value (CreateDecoderForInputSource subs auto inputSource mimeType error) = (Some d, e) ->
  exists info s0 e0,
    In info subs /\
    ((exists m, mimeType = Some m /\ mHandlesMIMEType info (Some m) = true) \/
     (exists x, mHandlesFilesWithExtension info (Some x) = true)) /\
    if auto then value (Open (mCreateDecoder info s0) e0) = (true, d, e)
    else d = mCreateDecoder info s0 /\ e = e0.
Proof.
  intros H. destruct inputSource as [src|]; [|discriminate H].
  destruct (value (openSourceIfAutomatic auto src error)) as [[ok s0] e0] eqn:E0.
  assert (Hext : forall s1 e1,
            value (resolveByExtension subs auto s1 e1) = (Some d, e) ->
            exists info s0 e0,
              In info subs /\
              ((exists m, mimeType = Some m /\ mHandlesMIMEType info (Some m) = true) \/
               (exists x, mHandlesFilesWithExtension info (Some x) = true)) /\
              if auto then value (Open (mCreateDecoder info s0) e0) = (true, d, e)
              else d = mCreateDecoder info s0 /\ e = e0).
  { intros s1 e1 Hr. apply resolveByExtension_found in Hr.
    destruct Hr as (url & x & _ & _ & Hx).
    unfold tryExtension in Hx. apply trySubclasses_sound in Hx.
    destruct Hx as (info & s & e' & Hin & Hh & Hd).
    exists info, s, e'. split; [assumption|]. split; [|assumption].
    right. exists x. assumption. }
  destruct ok.
  - destruct mimeType as [m|].
    + destruct (value (tryMIMEType subs auto (Some m) s0 e0)) as [[d'|s1] e1] eqn:E1.
      * rewrite (resolver_mime_found subs auto src m error E0 E1) in H.
        inversion H; subst. unfold tryMIMEType in E1.
        apply trySubclasses_sound in E1.
        destruct E1 as (info & s & e' & Hin & Hh & Hd).
        exists info, s, e'. split; [assumption|]. split; [|assumption].
        left. exists m. split; [reflexivity|assumption].
      * rewrite (resolver_mime_exhausted subs auto src m error E0 E1) in H.
        apply (Hext s1 e1 H).
    + rewrite (resolver_no_mime subs auto src error E0) in H. apply (Hext s0 e0 H).
  - rewrite (resolver_source_fails subs auto src mimeType error E0) in H.
    discriminate H.
Qed.

(** Without automatic opening the loop hands the source it was given to the
    subclass it selects, and leaves the error alone. *)
Lemma trySubclasses_unopened_sound (handles : SubclassInfo -> bool) (query : nat -> Event)
    (l : list SubclassInfo) (i : nat) (inputSource : InputSource) (error : ErrorOut) :
  snd (value (trySubclasses false handles query l i inputSource error)) = error /\
  match fst (value (trySubclasses false handles query l i inputSource error)) with
  | inl d => exists info, In info l /\ handles info = true /\
                          d = mCreateDecoder info inputSource
  | inr s => s = inputSource
  end.
Proof.
  revert i. induction l as [|info rest IH]; intros i.
  - split; reflexivity.
  - cbn [trySubclasses]. rewrite value_bind. destruct (handles info) eqn:Hinfo.
    + cbn. split; [reflexivity|]. exists info.
      split; [left; reflexivity|]. split; [assumption|reflexivity].
    + destruct (IH (S i)) as [He Hr]. split; [exact He|].
      destruct (fst (value (trySubclasses false handles query rest (S i) inputSource error)))
        as [d|s]; [|exact Hr].
      destruct Hr as (info' & Hin & Hh & Hd).
      exists info'. split; [right; assumption|]. split; assumption.
Qed.

(** X10.  Every decoder the resolver returns is the decoder of a registered
    subclass that the resolver selects: a subclass that handles the supplied
    MIME type, or one that handles the path extension of the locator of the
    source the resolver holds when it comes to the extensions, reached after
    the scan of the subclasses registered before it ended without a decoder;
    the decoder is the one that subclass constructed, opened when automatic
    opening is on.  Without automatic opening it is constructed on the
    caller's source as passed in, the extension is that of the caller's
    source, and the error is not written.  With an empty registry the
    resolver returns no decoder. *)
Theorem resolved_decoder_comes_from_registry (auto : bool)
    (inputSource : option InputSource) (mimeType : CFStringRef) (error : ErrorOut) :
  (forall d e,
     value (CreateDecoderForInputSource subs auto inputSource mimeType error) = (Some d, e) ->
     exists src s0 e0,
       inputSource = Some src /\
       value (openSourceIfAutomatic auto src error) = (true, s0, e0) /\
       ((exists m,
           mimeType = Some m /\
           selects auto (fun info => mHandlesMIMEType info (Some m))
                   EvHandlesMIMEType subs s0 e0 d e) \/
        (exists s1 e1 url x,
           ((mimeType = None /\ s1 = s0 /\ e1 = e0) \/
            (exists m, mimeType = Some m /\
                       value (tryMIMEType subs auto (Some m) s0 e0) = (inr s1, e1))) /\
           InputSource_GetURL s1 = Some url /\
           CFURLCopyPathExtension url = Some x /\
           selects auto (fun info => mHandlesFilesWithExtension info (Some x))
                   EvHandlesFilesWithExtension subs s1 e1 d e))) /\
  (forall d e,
     auto = false ->
     value (CreateDecoderForInputSource subs auto inputSource mimeType error) = (Some d, e) ->
     e = error /\
     exists src info,
       inputSource = Some src /\ In info subs /\ d = mCreateDecoder info src /\
       ((exists m, mimeType = Some m /\ mHandlesMIMEType info (Some m) = true) \/
        (exists url x,
           InputSource_GetURL src = Some url /\
           CFURLCopyPathExtension url = Some x /\
           mHandlesFilesWithExtension info (Some x) = true))) /\
  (subs = [] ->
   fst (value (CreateDecoderForInputSource subs auto inputSource mimeType error)) = None).
Proof.
  assert (Hselected : forall d e,
    value (CreateDecoderForInputSource subs auto inputSource mimeType error) = (Some d, e) ->
    exists src s0 e0,
      inputSource = Some src /\
      value (openSourceIfAutomatic auto src error) = (true, s0, e0) /\
      ((exists m,
          mimeType = Some m /\
          selects auto (fun info => mHandlesMIMEType info (Some m))
                  EvHandlesMIMEType subs s0 e0 d e) \/
       (exists s1 e1 url x,
          ((mimeType = None /\ s1 = s0 /\ e1 = e0) \/
           (exists m, mimeType = Some m /\
                      value (tryMIMEType subs auto (Some m) s0 e0) = (inr s1, e1))) /\
          InputSource_GetURL s1 = Some url /\
          CFURLCopyPathExtension url = Some x /\
          selects auto (fun info => mHandlesFilesWithExtension info (Some x))
                  EvHandlesFilesWithExtension subs s1 e1 d e))).
  { intros d e H. destruct inputSource as [src|]; [|discriminate H].
    destruct (value (openSourceIfAutomatic auto src error)) as [[ok s0] e0] eqn:E0.
    destruct ok.
    - exists src, s0, e0. split; [reflexivity|]. split; [exact E0|].
      destruct mimeType as [m|].
      + destruct (value (tryMIMEType subs auto (Some m) s0 e0)) as [[d'|s1] e1] eqn:E1.
        * rewrite (resolver_mime_found subs auto src m error E0 E1) in H.
          injection H as <- <-. left. exists m. split; [reflexivity|].
          apply trySubclasses_selects. exact E1.
        * rewrite (resolver_mime_exhausted subs auto src m error E0 E1) in H.
          cbn [value fst] in H. apply resolveByExtension_found in H.
          destruct H as (url & x & Hurl & Hx & Hloop).
          right. exists s1, e1, url, x.
          split; [right; exists m; split; [reflexivity|exact E1]|].
          split; [assumption|]. split; [assumption|].
          apply trySubclasses_selects. exact Hloop.
      + rewrite (resolver_no_mime subs auto src error E0) in H.
        cbn [value fst] in H. apply resolveByExtension_found in H.
        destruct H as (url & x & Hurl & Hx & Hloop).
        right. exists s0, e0, url, x.
        split; [left; repeat split|].
        split; [assumption|]. split; [assumption|].
        apply trySubclasses_selects. exact Hloop.
    - rewrite (resolver_source_fails subs auto src mimeType error E0) in H.
      discriminate H. }
  split; [exact Hselected|]. split.
  - intros d e Hauto H. subst auto.
    destruct (Hselected d e H) as (src & s0 & e0 & -> & E0 & Hcases).
    cbn in E0. injection E0 as <- <-.
    assert (Hplain : forall handles query s1 e1,
              selects false handles query subs s1 e1 d e ->
              e = e1 /\ exists info, In info subs /\ handles info = true /\
                                     d = mCreateDecoder info s1).
    { intros handles query s1 e1 Hsel. unfold selects in Hsel.
      destruct Hsel as (pre & info & post & s2 & e2 & Hsubs & Hpre & Hinfo & Hd & He).
      apply trySubclasses_unopened_exhausted in Hpre; [|reflexivity].
      destruct Hpre as (_ & -> & ->).
      split; [assumption|]. exists info.
      split; [rewrite Hsubs; apply in_or_app; right; left; reflexivity|].
      split; assumption. }
    destruct Hcases as [(m & -> & Hsel)|(s1 & e1 & url & x & Hreach & Hurl & Hx & Hsel)].
    + destruct (Hplain _ _ _ _ Hsel) as (He & info & Hin & Hh & Hd).
      split; [assumption|]. exists src, info.
      split; [reflexivity|]. split; [assumption|]. split; [assumption|].
      left. exists m. split; [reflexivity|assumption].
    + destruct (Hplain _ _ _ _ Hsel) as (He & info & Hin & Hh & Hd).
      assert (Hsame : s1 = src /\ e1 = error).
      { destruct Hreach as [(_ & -> & ->)|(m & _ & E1)]; [split; reflexivity|].
        unfold tryMIMEType in E1.
        apply trySubclasses_unopened_exhausted in E1; [|reflexivity].
        destruct E1 as (_ & -> & ->).
        split; reflexivity. }
      destruct Hsame as [-> ->].
      split; [assumption|]. exists src, info.
      split; [reflexivity|]. split; [assumption|]. split; [assumption|].
      right. exists url, x. repeat split; assumption.
  - intros Hempty.
    destruct (value (CreateDecoderForInputSource subs auto inputSource mimeType error))
      as [[d|] e] eqn:H; [|reflexivity].
    destruct (resolver_sound _ _ _ _ H) as (info & _ & _ & Hin & _).
    rewrite Hempty in Hin. destruct Hin.
Qed.

(** X11.  With automatic opening every decoder the resolver returns is
    Open. *)
Theorem automatic_opening_returns_open_decoders
    (inputSource : option InputSource) (mimeType : CFStringRef) (error : ErrorOut)
    (d : Decoder) (e : ErrorOut) :
  value (CreateDecoderForInputSource subs true inputSource mimeType error) = (Some d, e) ->
  IsOpen d = true.
Proof.
  intros H. destruct (resolver_sound _ _ _ _ H) as (info & s0 & e0 & _ & _ & Hopen).
  pose proof (Open_state_is_result (mCreateDecoder info s0) e0) as Hstate.
  rewrite Hopen in Hstate. exact Hstate.
Qed.

(** X12.  Without automatic opening the resolver does no input or output: it
    only asks registered subclasses and constructs, never opens the source or
    a decoder and never calls a hook; and it constructs one decoder when it
    returns one, none otherwise. *)
Theorem resolver_without_automatic_opening
    (inputSource : option InputSource) (mimeType : CFStringRef) (error : ErrorOut) :
  let r := CreateDecoderForInputSource subs false inputSource mimeType error in
  forallb isRegistryEvent (trace r) = true /\
  List.length (filter isCreateDecoder (trace r)) =
  (if isSome (fst (value r)) then 1 else 0)%nat.
Proof.
  intros r. subst r. destruct inputSource as [src|]; [|split; reflexivity].
  assert (E0 : value (openSourceIfAutomatic false src error) = (true, src, error))
    by reflexivity.
  assert (Hext : forall s1 e1,
            forallb isRegistryEvent (trace (resolveByExtension subs false s1 e1)) = true /\
            List.length (filter isCreateDecoder
                           (trace (resolveByExtension subs false s1 e1))) =
            (if isSome (fst (value (resolveByExtension subs false s1 e1)))
             then 1 else 0)%nat).
  { intros s1 e1. unfold resolveByExtension.
    destruct (InputSource_GetURL s1) as [url|]; [|split; reflexivity].
    destruct (CFURLCopyPathExtension url) as [ext|]; [|split; reflexivity].
    rewrite trace_bind, value_bind.
    destruct (trySubclasses_unopened_trace
                (fun info => mHandlesFilesWithExtension info (Some ext))
                EvHandlesFilesWithExtension (fun _ => eq_refl) (fun _ => eq_refl)
                subs 0%nat s1 e1) as [Hall Hcount].
    fold (tryExtension subs false (Some ext) s1 e1) in Hall, Hcount.
    destruct (value (tryExtension subs false (Some ext) s1 e1)) as [[d|s] e];
      cbn [fst] in Hcount; cbn [ret trace snd value fst isSome];
      rewrite app_nil_r; split; assumption. }
  destruct mimeType as [m|].
  - destruct (trySubclasses_unopened_trace
                (fun info => mHandlesMIMEType info (Some m))
                EvHandlesMIMEType (fun _ => eq_refl) (fun _ => eq_refl)
                subs 0%nat src error) as [Hall Hcount].
    fold (tryMIMEType subs false (Some m) src error) in Hall, Hcount.
    destruct (value (tryMIMEType subs false (Some m) src error)) as [[d|s1] e1] eqn:E1;
      cbn [fst] in Hcount.
    + rewrite (resolver_mime_found subs false src m error E0 E1).
      cbn [trace snd value fst isSome openSourceIfAutomatic AutomaticallyOpenDecoders ret app].
      split; assumption.
    + rewrite (resolver_mime_exhausted subs false src m error E0 E1).
      cbn [trace snd value fst openSourceIfAutomatic AutomaticallyOpenDecoders ret app].
      destruct (Hext s1 e1) as [Hall' Hcount'].
      rewrite forallb_app, filter_app, length_app, Hall, Hall', Hcount, Hcount'.
      split; reflexivity.
  - rewrite (resolver_no_mime subs false src error E0).
    cbn [trace snd value fst openSourceIfAutomatic AutomaticallyOpenDecoders ret app].
    apply Hext.
Qed.

(** X13.  With automatic opening, when the source is not open and cannot be
    opened, the resolver returns no decoder and the error the source left;
    no registered subclass is asked and no decoder is constructed. *)
Theorem resolver_gives_up_when_source_fails (inputSource : InputSource)
    (mimeType : CFStringRef) (error : ErrorOut) (s : InputSource) (e : ErrorOut) :
  InputSource_IsOpen inputSource = false ->
  InputSource_Open inputSource error = (false, s, e) ->
  CreateDecoderForInputSource subs true (Some inputSource) mimeType error =
  ((None, e), [EvSourceOpen]).
Proof.
  intros Hclosed Hopen.
  assert (E0 : openSourceIfAutomatic true inputSource error = ((false, s, e), [EvSourceOpen])).
  { unfold openSourceIfAutomatic, AutomaticallyOpenDecoders, ensureSourceOpen.
    rewrite Hclosed. unfold bind, emit, ret. rewrite Hopen. reflexivity. }
  rewrite (resolver_source_fails subs true inputSource mimeType error
             (s0 := s) (e0 := e)); rewrite E0; reflexivity.
Qed.

(** X14.  A MIME type that no registered subclass handles, as
    [HandlesMIMEType] tells, does not change the outcome: the resolver
    returns what it returns without a MIME type.  Without automatic opening a
    MIME type that [HandlesMIMEType] accepts always yields a decoder. *)
Theorem mime_query_predicts_resolution (auto : bool) (inputSource : option InputSource)
    (mimeType : string) (error : ErrorOut) :
  (value (HandlesMIMEType subs (Some mimeType)) = false ->
   value (CreateDecoderForInputSource subs auto inputSource (Some mimeType) error) =
   value (CreateDecoderForInputSource subs auto inputSource None error)) /\
  (value (HandlesMIMEType subs (Some mimeType)) = true ->
   auto = false ->
   forall src, inputSource = Some src ->
   isSome (fst (value (CreateDecoderForInputSource subs auto inputSource
                         (Some mimeType) error))) = true).
Proof.
  unfold HandlesMIMEType. rewrite anySubclassHandles_value. split.
  - intros Hnone. destruct inputSource as [src|]; [|reflexivity].
    destruct (value (openSourceIfAutomatic auto src error)) as [[ok s0] e0] eqn:E0.
    destruct ok.
    + assert (E1 : tryMIMEType subs auto (Some mimeType) s0 e0 =
                   ((inr s0, e0), map EvHandlesMIMEType (seq 0 (List.length subs))))
        by (unfold tryMIMEType; apply trySubclasses_none; assumption).
      rewrite (resolver_mime_exhausted subs auto src mimeType error (s0 := s0) (e0 := e0)
                 (s1 := s0) (e1 := e0) E0) by (rewrite E1; reflexivity).
      rewrite (resolver_no_mime subs auto src error E0). reflexivity.
    + rewrite (resolver_source_fails subs auto src (Some mimeType) error E0).
      rewrite (resolver_source_fails subs auto src None error E0). reflexivity.
  - intros Hsome -> src ->.
    destruct (existsb_first _ _ Hsome) as (pre & info & post & Hsubs & Hpre & Hinfo).
    assert (E1 : value (tryMIMEType subs false (Some mimeType) src error) =
                 (inl (mCreateDecoder info src), error)).
    { unfold tryMIMEType. rewrite Hsubs.
      rewrite trySubclasses_first_unopened by (assumption || reflexivity). reflexivity. }
    rewrite (resolver_mime_found subs false src mimeType error (s0 := src) (e0 := error)
               eq_refl E1).
    reflexivity.
Qed.

(** X15.  Without a MIME type, for a source whose locator has a path
    extension: if [HandlesFilesWithExtension] rejects the extension the
    resolver returns no decoder and does not write the error; without
    automatic opening the resolver returns a decoder exactly when
    [HandlesFilesWithExtension] accepts the extension. *)
Theorem extension_query_predicts_resolution (auto : bool) (inputSource : InputSource)
    (error : ErrorOut) (s0 : InputSource) (e0 : ErrorOut) (url : CFURL)
    (pathExtension : string) :
  value (openSourceIfAutomatic auto inputSource error) = (true, s0, e0) ->
  InputSource_GetURL s0 = Some url ->
  CFURLCopyPathExtension url = Some pathExtension ->
  (value (HandlesFilesWithExtension subs (Some pathExtension)) = false ->
   value (CreateDecoderForInputSource subs auto (Some inputSource) None error) = (None, e0)) /\
  (auto = false ->
   isSome (fst (value (CreateDecoderForInputSource subs auto (Some inputSource) None error))) =
   value (HandlesFilesWithExtension subs (Some pathExtension))).
Proof.
  intros E0 Hurl Hext. unfold HandlesFilesWithExtension.
  rewrite anySubclassHandles_value.
  rewrite (resolver_no_mime subs auto inputSource error E0). cbn [value fst].
  unfold resolveByExtension. rewrite Hurl, Hext. unfold tryExtension.
  assert (Hnone : existsb (fun info => mHandlesFilesWithExtension info (Some pathExtension))
                    subs = false ->
                  fst (bind (trySubclasses auto
                               (fun info => mHandlesFilesWithExtension info (Some pathExtension))
                               EvHandlesFilesWithExtension subs 0 s0 e0)
                         (fun x => let '(found, error0) := x in
                                   match found with
                                   | inl decoder => ret (Some decoder, error0)
                                   | inr _ => ret (None, error0)
                                   end)) = (None, e0)).
  { intros H. rewrite trySubclasses_none by assumption. reflexivity. }
  split; [exact Hnone|].
  intros ->.
  destruct (existsb (fun info => mHandlesFilesWithExtension info (Some pathExtension)) subs)
    eqn:Hany.
  - destruct (existsb_first _ _ Hany) as (pre & info & post & Hsubs & Hpre & Hinfo).
    rewrite Hsubs.
    rewrite trySubclasses_first_unopened by (assumption || reflexivity). reflexivity.
  - unfold value. rewrite (Hnone eq_refl). reflexivity.
Qed.

(** X16.  When no input source can be created for a URL, every entry
    point that takes a URL returns no decoder, with the error as the creation
    of the source left it, and does nothing else. *)
Theorem url_without_source_yields_null (auto : bool) (url : CFURL)
    (mimeType : CFStringRef) (error e : ErrorOut)
    (startingFrame frameCount repeatCount : Z) :
  InputSource_CreateInputSourceForURL url 0%Z error = (None, e) ->
  CreateDecoderForURL subs auto url mimeType error = ((None, e), []) /\
  CreateDecoderForURL_2 subs auto url error = ((None, e), []) /\
  CreateDecoderForURLRegion_1 subs auto url startingFrame error = ((None, e), []) /\
  CreateDecoderForURLRegion_2 subs auto url startingFrame frameCount error
    = ((None, e), []) /\
  CreateDecoderForURLRegion_3 subs auto url startingFrame frameCount repeatCount error
    = ((None, e), []).
Proof.
  intros H.
  unfold CreateDecoderForURL_2, CreateDecoderForURL, CreateDecoderForURLRegion_1,
    CreateDecoderForURLRegion_2, CreateDecoderForURLRegion_3.
  rewrite H. repeat split.
Qed.

(** X17.  A region entry point resolves exactly as the resolver without a
    MIME type does, with the same calls and the same error, and wraps the
    decoder, if there is one, in a region decoder that holds the starting
    frame, frame count and repeat count it was given; it returns no decoder
    exactly when the resolver returns none. *)
Theorem region_entry_points_wrap_the_resolver (auto : bool)
    (inputSource : option InputSource) (url : CFURL) (error : ErrorOut)
    (startingFrame frameCount repeatCount : Z) :
  let wrap (f : DecoderObject -> DecoderObject) (r : Traced (option Decoder * ErrorOut))
      : Traced (option DecoderObject * ErrorOut) :=
    ((option_map (fun d => f (ConcreteDecoder d)) (fst (value r)), snd (value r)), trace r) in
  let bySource := CreateDecoderForInputSource subs auto inputSource None error in
  let byURL := CreateDecoderForURL subs auto url None error in
  CreateDecoderForInputSourceRegion_1 subs auto inputSource startingFrame error =
  wrap (fun d => LoopableRegionDecoder_1 d startingFrame) bySource /\
  CreateDecoderForInputSourceRegion_2 subs auto inputSource startingFrame frameCount error =
  wrap (fun d => LoopableRegionDecoder_2 d startingFrame frameCount) bySource /\
  CreateDecoderForInputSourceRegion_3 subs auto inputSource startingFrame frameCount
    repeatCount error =
  wrap (fun d => LoopableRegionDecoder_3 d startingFrame frameCount repeatCount) bySource /\
  CreateDecoderForURLRegion_1 subs auto url startingFrame error =
  wrap (fun d => LoopableRegionDecoder_1 d startingFrame) byURL /\
  CreateDecoderForURLRegion_2 subs auto url startingFrame frameCount error =
  wrap (fun d => LoopableRegionDecoder_2 d startingFrame frameCount) byURL /\
  CreateDecoderForURLRegion_3 subs auto url startingFrame frameCount repeatCount error =
  wrap (fun d => LoopableRegionDecoder_3 d startingFrame frameCount repeatCount) byURL.
Proof.
  intros wrap bySource byURL. subst wrap bySource byURL.
  assert (Hsource : forall (src : option InputSource) (err : ErrorOut),
    CreateDecoderForInputSourceRegion_1 subs auto src startingFrame err =
    ((option_map (fun d => LoopableRegionDecoder_1 (ConcreteDecoder d) startingFrame)
        (fst (value (CreateDecoderForInputSource subs auto src None err))),
      snd (value (CreateDecoderForInputSource subs auto src None err))),
     trace (CreateDecoderForInputSource subs auto src None err)) /\
    CreateDecoderForInputSourceRegion_2 subs auto src startingFrame frameCount err =
    ((option_map (fun d => LoopableRegionDecoder_2 (ConcreteDecoder d) startingFrame frameCount)
        (fst (value (CreateDecoderForInputSource subs auto src None err))),
      snd (value (CreateDecoderForInputSource subs auto src None err))),
     trace (CreateDecoderForInputSource subs auto src None err)) /\
    CreateDecoderForInputSourceRegion_3 subs auto src startingFrame frameCount
      repeatCount err =
    ((option_map (fun d => LoopableRegionDecoder_3 (ConcreteDecoder d) startingFrame
                             frameCount repeatCount)
        (fst (value (CreateDecoderForInputSource subs auto src None err))),
      snd (value (CreateDecoderForInputSource subs auto src None err))),
     trace (CreateDecoderForInputSource subs auto src None err))).
  { intros [src|] err; [|repeat split].
    unfold CreateDecoderForInputSourceRegion_1, CreateDecoderForInputSourceRegion_2,
      CreateDecoderForInputSourceRegion_3, CreateDecoderForInputSource_2, resolved.
    destruct (CreateDecoderForInputSource subs auto (Some src) None err)
      as [[[d|] e] t]; unfold bind; cbn; rewrite app_nil_r; repeat split. }
  destruct (Hsource inputSource error) as (H1 & H2 & H3).
  split; [exact H1|]. split; [exact H2|]. split; [exact H3|].
  unfold CreateDecoderForURLRegion_1, CreateDecoderForURLRegion_2,
    CreateDecoderForURLRegion_3, CreateDecoderForURL.
  destruct (InputSource_CreateInputSourceForURL url 0%Z error) as [src e].
  apply Hsource.
Qed.

Lemma existsb_flat_map (A B : Type) (f : B -> bool) (g : A -> list B) (l : list A) :
  existsb f (flat_map g l) = existsb (fun a => existsb f (g a)) l.
Proof.
  induction l as [|a l IH]; [reflexivity|].
  cbn [flat_map existsb]. rewrite existsb_app, IH. reflexivity.
Qed.

Lemma existsb_agree (A : Type) (f g : A -> bool) (l : list A) :
  (forall a, In a l -> f a = g a) -> existsb f l = existsb g l.
Proof.
  induction l as [|a l IH]; intros H; [reflexivity|].
  cbn [existsb]. rewrite (H a (or_introl eq_refl)), IH; [reflexivity|].
  intros b Hb. apply H. right. assumption.
Qed.

Lemma existsb_incl (A : Type) (f : A -> bool) (l l' : list A) :
  (forall a, In a l -> In a l') -> existsb f l = true -> existsb f l' = true.
Proof.
  intros Hincl H. apply existsb_exists in H. destruct H as (a & Ha & Hf).
  apply existsb_exists. exists a. split; [apply Hincl; assumption|assumption].
Qed.

(** X18.  When every registered subclass declares what it handles, the
    registry's queries and its lists agree: [HandlesFilesWithExtension]
    accepts a name exactly when it equals, ignoring case, an entry of
    [CreateSupportedFileExtensions], and [HandlesMIMEType] exactly when it
    equals, ignoring case, an entry of [CreateSupportedMIMETypes]. *)
Theorem queries_agree_with_declared_lists (x : string) :
  (forall info, In info subs -> declaresWhatItHandles info) ->
  value (HandlesFilesWithExtension subs (Some x)) =
  existsb (caseInsensitiveEqual x) (CreateSupportedFileExtensions subs) /\
  value (HandlesMIMEType subs (Some x)) =
  existsb (caseInsensitiveEqual x) (CreateSupportedMIMETypes subs).
Proof.
  intros Hall.
  unfold HandlesFilesWithExtension, HandlesMIMEType,
    CreateSupportedFileExtensions, CreateSupportedMIMETypes.
  rewrite !anySubclassHandles_value, !existsb_flat_map.
  split; apply existsb_agree; intros info Hin;
    destruct (Hall info Hin) as [Hext Hmime]; [apply Hext|apply Hmime].
Qed.

(** X19.  The lists of supported extensions and MIME types hold each
    registered subclass's entries in registration order: a name is listed
    exactly when some registered subclass lists it, and for a registry made of
    two parts the list is the list of the first part followed by the list of
    the second. *)
Theorem supported_lists_follow_registration (first second : list SubclassInfo)
    (x : string) :
  (In x (CreateSupportedFileExtensions subs) <->
   exists info, In info subs /\ In x (mCreateSupportedFileExtensions info)) /\
  (In x (CreateSupportedMIMETypes subs) <->
   exists info, In info subs /\ In x (mCreateSupportedMIMETypes info)) /\
  CreateSupportedFileExtensions (first ++ second) =
  CreateSupportedFileExtensions first ++ CreateSupportedFileExtensions second /\
  CreateSupportedMIMETypes (first ++ second) =
  CreateSupportedMIMETypes first ++ CreateSupportedMIMETypes second.
Proof.
  unfold CreateSupportedFileExtensions, CreateSupportedMIMETypes.
  split; [apply in_flat_map|]. split; [apply in_flat_map|].
  split; apply flat_map_app.
Qed.

(** X20.  Whether the registry handles an extension or a MIME type does not
    depend on the order of registration, and registering more subclasses
    never turns a [true] into a [false]. *)
Theorem registry_answers_ignore_order (subs' : list SubclassInfo) (s : CFStringRef) :
  (Permutation subs subs' ->
   value (HandlesFilesWithExtension subs s) = value (HandlesFilesWithExtension subs' s) /\
   value (HandlesMIMEType subs s) = value (HandlesMIMEType subs' s)) /\
  ((forall info, In info subs -> In info subs') ->
   (value (HandlesFilesWithExtension subs s) = true ->
    value (HandlesFilesWithExtension subs' s) = true) /\
   (value (HandlesMIMEType subs s) = true ->
    value (HandlesMIMEType subs' s) = true)).
Proof.
  assert (Hmono : forall l l' : list SubclassInfo,
            (forall info, In info l -> In info l') ->
            (value (HandlesFilesWithExtension l s) = true ->
             value (HandlesFilesWithExtension l' s) = true) /\
            (value (HandlesMIMEType l s) = true ->
             value (HandlesMIMEType l' s) = true)).
  { intros l l' Hincl. unfold HandlesFilesWithExtension, HandlesMIMEType.
    destruct s as [x|]; [|split; intros H; exact H].
    rewrite !anySubclassHandles_value. split; apply existsb_incl; assumption. }
  split; [|apply Hmono].
  intros Hperm.
  destruct (Hmono subs subs' (fun info => Permutation_in info Hperm)) as [He Hm].
  destruct (Hmono subs' subs (fun info => Permutation_in info (Permutation_sym Hperm)))
    as [He' Hm'].
  split; apply Bool.eq_true_iff_eq; split; assumption.
Qed.

End Resolution.

(** * [MP3Metadata] *)

(** X21.  [MP3Metadata] handles exactly what it declares: its two tests
    accept a name exactly when it equals, ignoring case, an entry of the
    corresponding list, that is "mp3" for extensions and "audio/mpeg" for MIME
    types; a null and an empty name are rejected. *)
Theorem MP3Metadata_handles_what_it_declares (s : CFStringRef) (x : string) :
  MP3Metadata.HandlesFilesWithExtension s =
  handlesAnyOf MP3Metadata.CreateSupportedFileExtensions s /\
  MP3Metadata.HandlesMIMEType s =
  handlesAnyOf MP3Metadata.CreateSupportedMIMETypes s /\
  (MP3Metadata.HandlesFilesWithExtension (Some x) = true <->
   lowerString x = "mp3"%string) /\
  (MP3Metadata.HandlesMIMEType (Some x) = true <->
   lowerString x = "audio/mpeg"%string) /\
  MP3Metadata.HandlesFilesWithExtension None = false /\
  MP3Metadata.HandlesMIMEType None = false /\
  MP3Metadata.HandlesFilesWithExtension (Some EmptyString) = false /\
  MP3Metadata.HandlesMIMEType (Some EmptyString) = false.
Proof.
  unfold MP3Metadata.HandlesFilesWithExtension, MP3Metadata.HandlesMIMEType,
    MP3Metadata.CreateSupportedFileExtensions, MP3Metadata.CreateSupportedMIMETypes,
    handlesAnyOf, caseInsensitiveEqual.
  split; [destruct s as [y|]; [|reflexivity]; cbn [existsb];
          destruct (String.eqb (lowerString y) (lowerString "mp3")); reflexivity|].
  split; [destruct s as [y|]; [|reflexivity]; cbn [existsb];
          destruct (String.eqb (lowerString y) (lowerString "audio/mpeg")); reflexivity|].
  split.
  { change (lowerString "mp3") with "mp3"%string.
    destruct (String.eqb (lowerString x) "mp3") eqn:E.
    - apply String.eqb_eq in E. split; intros _; [assumption|reflexivity].
    - apply String.eqb_neq in E. split; intros H; [discriminate H|contradiction]. }
  split.
  { change (lowerString "audio/mpeg") with "audio/mpeg"%string.
    destruct (String.eqb (lowerString x) "audio/mpeg") eqn:E.
    - apply String.eqb_eq in E. split; intros _; [assumption|reflexivity].
    - apply String.eqb_neq in E. split; intros H; [discriminate H|contradiction]. }
  repeat split.
Qed.

Section MP3MetadataFile.

Import MP3Metadata.

Context {CFURL Path Stream Dictionary Pictures
         AudioProperties XingHeader APE ID3v1 ID3v2 : Type}.
Context {env : Environment CFURL Path Stream Dictionary Pictures
                 AudioProperties XingHeader APE ID3v1 ID3v2}.

Local Abbreviation ErrorOut := (ErrorOut CFURL).
Local Abbreviation Metadata := (Metadata CFURL Dictionary Pictures).

(** X22.  [_ReadMetadata] returns [true] exactly when the locator has a file
    system path, the file opens read-only and TagLib finds a valid MPEG file
    in it.  When it returns [true] the error is not written; when it returns
    [false] the metadata object is unchanged, and the error is either not
    written or an input/output error of the metadata domain for the object's
    locator; it is not written when the locator has no file system path.
    The locator never changes. *)
Theorem ReadMetadata_outcome (m : Metadata) (error : ErrorOut) :
  let ok := fst (fst (_ReadMetadata m error)) in
  let m' := snd (fst (_ReadMetadata m error)) in
  let e' := snd (_ReadMetadata m error) in
  (ok = true <->
   exists buf,
     CFURLGetFileSystemRepresentation (mURL m) = Some buf /\
     FileStream_isOpen (FileStream_new buf true) = true /\
     isValid (MPEGFile_new (FileStream_new buf true) true) = true) /\
  mURL m' = mURL m /\
  (ok = true -> e' = error) /\
  (ok = false ->
   m' = m /\
   (e' = error \/
    exists err, e' = storeError error err /\
                errDomain err = Metadata_ErrorDomain /\
                errCode err = Metadata_InputOutputError /\
                errURL err = Some (mURL m))) /\
  (CFURLGetFileSystemRepresentation (mURL m) = None -> e' = error).
Proof.
  unfold _ReadMetadata.
  destruct (CFURLGetFileSystemRepresentation (mURL m)) as [buf|] eqn:Hbuf.
  - destruct (FileStream_isOpen (FileStream_new buf true)) eqn:Hopen; cbn [negb].
    + destruct (isValid (MPEGFile_new (FileStream_new buf true) true)) eqn:Hvalid;
        cbn [negb].
      * set (file := MPEGFile_new (FileStream_new buf true) true) in *.
        destruct (match APETag file with
                  | Some tag => AddAPETagToDictionary _ (mPictures m) tag
                  | None => _
                  end) as [d p].
        destruct (match ID3v2Tag file with
                  | Some tag => AddID3v2TagToDictionary _ p tag
                  | None => _
                  end) as [d' p'].
        cbn. split; [split; [intros _; exists buf; repeat split; assumption|reflexivity]|].
        split; [reflexivity|]. split; [reflexivity|].
        split; intros H; discriminate H.
      * cbn. split.
        { split; [intros H; discriminate H|].
          intros (b & Hb & Ho & Hv). injection Hb as <-.
          rewrite Hvalid in Hv. discriminate Hv. }
        split; [reflexivity|]. split; [intros H; discriminate H|].
        split; [|intros H; discriminate H].
        intros _. split; [reflexivity|]. right.
        exists (notMPEGError (mURL m)). repeat split.
    + cbn. split.
      { split; [intros H; discriminate H|].
        intros (b & Hb & Ho & Hv). injection Hb as <-.
        rewrite Hopen in Ho. discriminate Ho. }
      split; [reflexivity|]. split; [intros H; discriminate H|].
      split; [|intros H; discriminate H].
      intros _. split; [reflexivity|]. right.
      exists (cannotReadError (mURL m)). repeat split.
  - cbn. split.
    { split; [intros H; discriminate H|]. intros (b & Hb & _). discriminate Hb. }
    split; [reflexivity|]. split; [intros H; discriminate H|].
    split; [|reflexivity].
    intros _. split; [reflexivity|]. left. reflexivity.
Qed.

(** X23.  [_WriteMetadata] hands a file to [save()] exactly when the locator
    has a file system path, the file opens for writing and TagLib finds a
    valid MPEG file in it, and it returns [true] exactly when that save
    succeeds.  The file it saves always has an ID3v2 tag; it has an APE tag,
    respectively an ID3v1 tag, exactly when the file had one before, and a
    tag of these two kinds that was empty is saved as it was. *)
Theorem WriteMetadata_outcome (m : Metadata) (error : ErrorOut) :
  let ok := fst (fst (_WriteMetadata m error)) in
  let e' := snd (fst (_WriteMetadata m error)) in
  let saved := snd (_WriteMetadata m error) in
  (isSome saved = true <->
   exists buf,
     CFURLGetFileSystemRepresentation (mURL m) = Some buf /\
     FileStream_isOpen (FileStream_new buf false) = true /\
     isValid (MPEGFile_new (FileStream_new buf false) false) = true) /\
  (ok = true <-> exists file', saved = Some file' /\ MPEGFile_save file' = true) /\
  (ok = true -> e' = error) /\
  (forall buf file',
     CFURLGetFileSystemRepresentation (mURL m) = Some buf ->
     saved = Some file' ->
     let file := MPEGFile_new (FileStream_new buf false) false in
     isSome (ID3v2Tag file') = true /\
     isSome (APETag file') = isSome (APETag file) /\
     isSome (ID3v1Tag file') = isSome (ID3v1Tag file) /\
     (forall tag, APETag file = Some tag -> APE_isEmpty tag = true ->
                  APETag file' = Some tag) /\
     (forall tag, ID3v1Tag file = Some tag -> ID3v1_isEmpty tag = true ->
                  ID3v1Tag file' = Some tag)).
Proof.
  unfold _WriteMetadata.
  destruct (CFURLGetFileSystemRepresentation (mURL m)) as [buf|] eqn:Hbuf.
  - destruct (FileStream_isOpen (FileStream_new buf false)) eqn:Hopen; cbn [negb].
    + destruct (isValid (MPEGFile_new (FileStream_new buf false) false)) eqn:Hvalid;
        cbn [negb].
      * set (file := MPEGFile_new (FileStream_new buf false) false) in *.
        match goal with
        | |- context [MPEGFile_save ?f] => set (file' := f) in *
        end.
        assert (Htags :
          isSome (ID3v2Tag file') = true /\
          isSome (APETag file') = isSome (APETag file) /\
          isSome (ID3v1Tag file') = isSome (ID3v1Tag file) /\
          (forall tag, APETag file = Some tag -> APE_isEmpty tag = true ->
                       APETag file' = Some tag) /\
          (forall tag, ID3v1Tag file = Some tag -> ID3v1_isEmpty tag = true ->
                       ID3v1Tag file' = Some tag)).
        { subst file'. cbn. split; [reflexivity|].
          split; [destruct (APETag file) as [t|]; [destruct (APE_isEmpty t)|];
                  reflexivity|].
          split; [destruct (ID3v1Tag file) as [t|]; [destruct (ID3v1_isEmpty t)|];
                  reflexivity|].
          split; intros tag -> ->; reflexivity. }
        destruct (MPEGFile_save file') eqn:Hsave; cbn.
        -- split; [split; [intros _; exists buf; repeat split; assumption|reflexivity]|].
           split; [split; [intros _; exists file'; split; [reflexivity|assumption]
                          |reflexivity]|].
           split; [reflexivity|].
           intros b f Hb Hf. injection Hb as <-. injection Hf as <-. exact Htags.
        -- split; [split; [intros _; exists buf; repeat split; assumption|reflexivity]|].
           split; [split; [intros H; discriminate H|]|].
           { intros (f & Hf & Hs). injection Hf as <-.
             rewrite Hsave in Hs. discriminate Hs. }
           split; [intros H; discriminate H|].
           intros b f Hb Hf. injection Hb as <-. injection Hf as <-. exact Htags.
      * cbn. split.
        { split; [intros H; discriminate H|].
          intros (b & Hb & Ho & Hv). injection Hb as <-.
          rewrite Hvalid in Hv. discriminate Hv. }
        split; [split; [intros H; discriminate H|intros (f & Hf & _); discriminate Hf]|].
        split; [intros H; discriminate H|]. intros b f _ Hf. discriminate Hf.
    + cbn. split.
      { split; [intros H; discriminate H|].
        intros (b & Hb & Ho & Hv). injection Hb as <-.
        rewrite Hopen in Ho. discriminate Ho. }
      split; [split; [intros H; discriminate H|intros (f & Hf & _); discriminate Hf]|].
      split; [intros H; discriminate H|]. intros b f _ Hf. discriminate Hf.
  - cbn. split.
    { split; [intros H; discriminate H|]. intros (b & Hb & _). discriminate Hb. }
    split; [split; [intros H; discriminate H|intros (f & Hf & _); discriminate Hf]|].
    split; [intros H; discriminate H|]. intros b f Hb. discriminate Hb.
Qed.

End MP3MetadataFile.

(** * The model at work *)

Import Fixture.
Local Open Scope string_scope.

(** C1, as the spec has it, fails: the close hook of [stuckDecoder] reports a
    failure, and the decoder is still Open after [Close]. *)
Lemma Close_failed_hook_stays_open :
  ~ (IsOpen stuckDecoder = true ->
     IsOpen (snd (fst (value (Close stuckDecoder noError)))) = false).
Proof. intros H. specialize (H eq_refl). discriminate H. Qed.

Lemma Close_closes_iff_hook_succeeds_witness :
  Close openDecoder noError =
  ((true, {| mInputSource := song; mIsOpen := false; mImpl := codec "MP3" true true |},
    noError),
   [EvHook HClose; EvSourceClose]).
Proof.
  exact (Close_closes_iff_hook_succeeds openDecoder noError
           (result := true) (impl := codec "MP3" true true) (src1 := openSong)
           (e1 := noError) (closed := true) (src2 := song) (e2 := noError)
           eq_refl eq_refl eq_refl).
Defined.

Lemma closed_decoder_is_safe_witness :
  IsOpen closedDecoder = false /\
  value (ReadAudio closedDecoder (Some [1%Z; 2%Z]) 512) = (0%Z, closedDecoder, Some [1%Z; 2%Z]) /\
  value (GetTotalFrames closedDecoder) = (-1)%Z /\
  value (SeekToFrame closedDecoder 10) = ((-1)%Z, closedDecoder) /\
  existsb isHook (trace (SeekToFrame closedDecoder 10)) = false.
Proof.
  destruct (closed_decoder_is_safe closedDecoder (Some [1%Z; 2%Z]) 512 10 eq_refl)
    as ((Hread & _) & (Htotal & _) & _ & (Hseek & Hquiet) & _).
  repeat split; assumption.
Defined.

Lemma Open_Close_idempotent_witness :
  Open openDecoder noError =
  ((true, openDecoder, noError),
   [EvLog LogInfo "Open() called on a Decoder that is already open"]) /\
  Close closedDecoder noError =
  ((true, closedDecoder, noError),
   [EvLog LogInfo "Close() called on a Decoder that hasn't been opened"]).
Proof.
  split.
  - apply (proj1 (Open_Close_idempotent openDecoder noError)). reflexivity.
  - apply (proj2 (Open_Close_idempotent closedDecoder noError)). reflexivity.
Defined.

Lemma SeekToFrame_range_checked_witness :
  value (SeekToFrame openDecoder (-1)) = ((-1)%Z, openDecoder) /\
  value (SeekToFrame openDecoder 1000) = ((-1)%Z, openDecoder) /\
  SeekToFrame openDecoder 50 =
  ((50%Z, {| mInputSource := openSong; mIsOpen := true;
             mImpl := seekCodec (codec "MP3" true true) 50 |}),
   [EvHook HGetTotalFrames; EvHook (HSeekToFrame 50)]).
Proof.
  split; [|split].
  - apply (proj1 (SeekToFrame_range_checked openDecoder (-1) eq_refl)).
    left. reflexivity.
  - apply (proj1 (SeekToFrame_range_checked openDecoder 1000 eq_refl)).
    right. vm_compute. discriminate.
  - apply (proj2 (SeekToFrame_range_checked openDecoder 50 eq_refl)).
    + split; vm_compute; [discriminate|reflexivity].
    + reflexivity.
Defined.

(** C8, as the spec has it, fails: with a registered subclass that claims
    the empty extension, the registry answers [true] for the empty string. *)
Lemma registry_accepts_empty_string :
  value (HandlesFilesWithExtension [mp3; raw] (Some "")) <> false /\
  value (HandlesMIMEType [mp3; raw] (Some "")) <> false.
Proof. split; discriminate. Qed.

Lemma registry_queries_scan_in_order_witness :
  HandlesFilesWithExtension [mp3; wavpack; raw] (Some "WV") =
  (true, [EvHandlesFilesWithExtension 0; EvHandlesFilesWithExtension 1]) /\
  HandlesMIMEType [mp3; wavpack] (Some "") =
  (false, [EvHandlesMIMEType 0; EvHandlesMIMEType 1]).
Proof.
  destruct (registry_queries_scan_in_order [mp3; wavpack; raw])
    as (_ & _ & Hfirst & _).
  destruct (registry_queries_scan_in_order [mp3; wavpack])
    as (_ & _ & _ & _ & _ & Hnone).
  split.
  - apply (Hfirst "WV" [mp3] wavpack [raw]); [reflexivity| |reflexivity].
    intros y [<-|[]]. reflexivity.
  - apply (Hnone "").
    intros y [<-|[<-|[]]]; reflexivity.
Defined.

(** C6, as the spec has it, fails: [pipe] has no locator, the resolution
    reaches the step by extension, and the caller's error is still empty
    afterwards. *)
Lemma no_locator_leaves_error_unset :
  InputSource_GetURL pipe = None /\
  value (CreateDecoderForInputSource [mp3; wavpack] false (Some pipe) None noError)
  = (None, Some None) /\
  ~ (exists e,
       snd (value (CreateDecoderForInputSource [mp3; wavpack] false (Some pipe) None noError))
       = Some (Some e) /\
       errFailureReason e = "Unknown file type").
Proof.
  split; [reflexivity|]. split; [reflexivity|].
  intros (e & He & _). discriminate He.
Qed.

Lemma unknown_file_type_error_witness :
  value (CreateDecoderForInputSource [mp3; wavpack] false (Some pipe) None noError)
  = (None, noError) /\
  value (CreateDecoderForInputSource [mp3; wavpack] false (Some bare) None noError)
  = (None, Some (Some (unknownFileTypeError bareURL))) /\
  value (CreateDecoderForInputSource [mp3; wavpack] false (Some bare) None None)
  = (None, None).
Proof.
  split; [|split].
  - apply (proj1 (unknown_file_type_error [mp3; wavpack] false pipe
                    (mimeType := None) noError
                    (s0 := pipe) (e0 := noError) (s1 := pipe) (e1 := noError)
                    eq_refl (or_introl (conj eq_refl (conj eq_refl eq_refl))))).
    reflexivity.
  - pose proof (proj2 (unknown_file_type_error [mp3; wavpack] false bare
                         (mimeType := None) noError
                         (s0 := bare) (e0 := noError) (s1 := bare) (e1 := noError)
                         eq_refl (or_introl (conj eq_refl (conj eq_refl eq_refl)))))
      as Hbare.
    specialize (Hbare bareURL eq_refl eq_refl). exact (proj1 Hbare).
  - pose proof (proj2 (unknown_file_type_error [mp3; wavpack] false bare
                         (mimeType := None) None
                         (s0 := bare) (e0 := None) (s1 := bare) (e1 := None)
                         eq_refl (or_introl (conj eq_refl (conj eq_refl eq_refl)))))
      as Hbare.
    specialize (Hbare bareURL eq_refl eq_refl). exact (proj1 Hbare).
Defined.

(** C2, as the spec has it, fails: [brokenWavpack] handles the MIME type
    "audio/wavpack" and [mp3] does not, yet with automatic opening the
    decoder of [brokenWavpack] fails to open and the resolver returns the
    decoder of [mp3], found by the extension. *)
Lemma mime_handler_not_selected_when_open_fails :
  mHandlesMIMEType brokenWavpack (Some "audio/wavpack") = true /\
  mHandlesMIMEType mp3 (Some "audio/wavpack") = false /\
  value (CreateDecoderForInputSource [brokenWavpack; mp3] true (Some song)
           (Some "audio/wavpack") noError)
  = (Some {| mInputSource := openSong; mIsOpen := true; mImpl := codec "MP3" true true |},
     Some (Some codecError)) /\
  existsb isExtensionQuery
    (trace (CreateDecoderForInputSource [brokenWavpack; mp3] true (Some song)
              (Some "audio/wavpack") noError)) = true /\
  ~ (exists s e d,
       value (Open (mCreateDecoder brokenWavpack s) e) =
       (true, d, Some (Some codecError)) /\
       value (CreateDecoderForInputSource [brokenWavpack; mp3] true (Some song)
                (Some "audio/wavpack") noError) = (Some d, Some (Some codecError))).
Proof.
  split; [reflexivity|]. split; [reflexivity|]. split; [reflexivity|].
  split; [reflexivity|].
  intros (s & e & d & Hopen & _).
  unfold Open, ensureSourceOpen, bind, ret, emit, value in Hopen. cbn in Hopen.
  destruct (srcIsOpen s); cbn in Hopen; [discriminate Hopen|].
  unfold sourceOpen in Hopen. destruct (srcOpens s); cbn in Hopen; discriminate Hopen.
Qed.

Lemma mime_type_precedes_extension_witness :
  value (CreateDecoderForInputSource [mp3; wavpack] false (Some song)
           (Some "audio/wavpack") noError)
  = (Some (mCreateDecoder wavpack song), noError) /\
  existsb isExtensionQuery
    (trace (CreateDecoderForInputSource [mp3; wavpack] false (Some song)
              (Some "audio/wavpack") noError)) = false /\
  value (CreateDecoderForInputSource [mp3; wavpack] true (Some song)
           (Some "AUDIO/WavPack") noError)
  = (Some {| mInputSource := openSong; mIsOpen := true;
             mImpl := codec "WavPack" true true |}, noError) /\
  value (CreateDecoderForInputSource [brokenWavpack; mp3; wavpack] true (Some song)
           (Some "audio/wavpack") noError)
  = (Some {| mInputSource := openSong; mIsOpen := true;
             mImpl := codec "WavPack" true true |}, Some (Some codecError)) /\
  (exists s1 e1,
     value (tryMIMEType [mp3; wavpack] false (Some "audio/flac") song noError)
     = (inr s1, e1)) /\
  existsb (fun info => mHandlesMIMEType info (Some "audio/flac")) [mp3; wavpack] = false.
Proof.
  destruct (mime_type_precedes_extension [mp3; wavpack] false song "audio/wavpack" noError)
    as (_ & Hunopened & _).
  destruct (mime_type_precedes_extension [mp3; wavpack] true song "AUDIO/WavPack" noError)
    as (_ & _ & Hopened & _).
  destruct (mime_type_precedes_extension [brokenWavpack; mp3; wavpack] true song
              "audio/wavpack" noError)
    as (_ & _ & _ & _ & Hselected & _).
  destruct (mime_type_precedes_extension [mp3; wavpack] false song "audio/flac" noError)
    as (_ & _ & _ & _ & _ & Honly & _).
  assert (Hpre : forall m : string,
            handlesAnyOf ["audio/mpeg"] (Some m) = false ->
            forall x, In x [mp3] -> mHandlesMIMEType x (Some m) = false).
  { intros m Hm x [<-|[]]. exact Hm. }
  destruct (Hunopened [mp3] wavpack [] eq_refl eq_refl
              (Hpre "audio/wavpack" eq_refl) eq_refl)
    as [Hvalue Hquiet].
  destruct (Hopened [mp3] wavpack [] openSong noError
              {| mInputSource := openSong; mIsOpen := true;
                 mImpl := codec "WavPack" true true |} noError
              eq_refl eq_refl eq_refl (Hpre "AUDIO/WavPack" eq_refl) eq_refl eq_refl)
    as [Hvalue' _].
  assert (Hselects :
            selects true (fun info => mHandlesMIMEType info (Some "audio/wavpack"))
              EvHandlesMIMEType [brokenWavpack; mp3; wavpack] openSong noError
              {| mInputSource := openSong; mIsOpen := true;
                 mImpl := codec "WavPack" true true |} (Some (Some codecError))).
  { exists [brokenWavpack; mp3], wavpack, [], openSong, (Some (Some codecError)).
    repeat split. }
  destruct (Hselected openSong noError _ _ eq_refl Hselects) as [Hvalue'' _].
  destruct (Honly eq_refl) as (s0 & e0 & s1 & e1 & E0 & E1 & Hnone).
  injection E0 as <- <-.
  split; [exact Hvalue|]. split; [exact Hquiet|]. split; [exact Hvalue'|].
  split; [exact Hvalue''|]. split; [exists s1, e1; exact E1|].
  apply Hnone. reflexivity.
Defined.

Lemma failed_open_reclaims_source_witness :
  value (tryMIMEType [brokenWavpack; mp3; wavpack] true (Some "audio/wavpack")
           openSong noError)
  = (inl {| mInputSource := openSong; mIsOpen := true;
            mImpl := codec "WavPack" true true |},
     Some (Some codecError)) /\
  value (CreateDecoderForInputSource [brokenWavpack; mp3] true (Some song)
           (Some "audio/wavpack") noError)
  = (Some {| mInputSource := openSong; mIsOpen := true; mImpl := codec "MP3" true true |},
     Some (Some codecError)).
Proof.
  destruct (failed_open_reclaims_source [brokenWavpack; mp3; wavpack])
    as (_ & _ & _ & Hnext & _).
  destruct (failed_open_reclaims_source [brokenWavpack; mp3])
    as (_ & _ & _ & _ & Hfall & _).
  split.
  - apply (Hnext (fun info => mHandlesMIMEType info (Some "audio/wavpack"))
                 EvHandlesMIMEType [] brokenWavpack [mp3] wavpack [] 0%nat
                 openSong noError
                 {| mInputSource := openSong; mIsOpen := false;
                    mImpl := codec "BrokenWavPack" false true |}
                 (Some (Some codecError))).
    + intros x [].
    + reflexivity.
    + reflexivity.
    + intros x [<-|[]]. reflexivity.
    + reflexivity.
    + reflexivity.
  - destruct (Hfall song "audio/wavpack" noError openSong noError openSong
                (Some (Some codecError)) eq_refl eq_refl) as [Hvalue Hloop].
    rewrite Hvalue. rewrite (Hloop songURL "mp3" eq_refl eq_refl). reflexivity.
Defined.

(** * The further properties at work *)

Import Cases.

Lemma Open_fails_when_source_fails_witness :
  Open lockedDecoder noError =
  ((false, lockedDecoder, Some (Some ioError)), [EvSourceOpen]).
Proof.
  exact (Open_fails_when_source_fails lockedDecoder noError
           (inputSource := lockedSong) (e := Some (Some ioError))
           eq_refl eq_refl eq_refl).
Defined.

Lemma Open_on_closed_decoder_witness :
  fst (fst (value (Open closedDecoder noError))) = true /\
  existsb isSourceOpen (trace (Open closedDecoder noError)) = true /\
  existsb isHook (trace (Open closedDecoder noError)) = true.
Proof.
  exact (Open_on_closed_decoder closedDecoder noError
           (ready := true) (s0 := openSong) (e0 := noError) eq_refl eq_refl).
Defined.

Lemma Close_true_means_closed_witness :
  IsOpen (snd (fst (value (Close openDecoder noError)))) = false.
Proof. apply Close_true_means_closed. reflexivity. Defined.

Lemma read_hook_contract_witness :
  ReadAudio openDecoder (Some [7%Z]) 3 =
  ((3%Z, {| mInputSource := openSong; mIsOpen := true;
            mImpl := seekCodec (codec "MP3" true true) 3 |},
    Some [0%Z; 0%Z; 0%Z]),
   [EvHook (HReadAudio 3)]) /\
  (forall e, In e (trace (ReadAudio openDecoder None 3)) -> isHook e = true -> False).
Proof.
  split.
  - apply (proj2 (read_hook_contract openDecoder (Some [7%Z]) 3) [7%Z]);
      [reflexivity|reflexivity|discriminate|reflexivity].
  - intros e Hin Hhook.
    destruct (proj1 (read_hook_contract openDecoder None 3) e Hin Hhook)
      as (_ & _ & Hbuffer & _).
    apply Hbuffer. reflexivity.
Defined.

Lemma seek_hook_contract_witness :
  existsb isHook (trace (SeekToFrame openDecoder (-5))) = false /\
  (forall f, In (EvHook (HSeekToFrame f)) (trace (SeekToFrame openDecoder 2000)) -> False).
Proof.
  split.
  - apply (proj2 (seek_hook_contract openDecoder (-5))). reflexivity.
  - intros f Hin.
    destruct (proj1 (seek_hook_contract openDecoder 2000) f Hin) as (_ & _ & _ & Hhigh).
    vm_compute in Hhigh. discriminate Hhigh.
Defined.

Lemma lifecycle_calls_compose_witness :
  Open (snd (fst (value (Open closedDecoder noError)))) noError =
  ((true, snd (fst (value (Open closedDecoder noError))), noError),
   [EvLog LogInfo "Open() called on a Decoder that is already open"]) /\
  Close (snd (fst (value (Open lockedDecoder noError)))) noError =
  ((true, snd (fst (value (Open lockedDecoder noError))), noError),
   [EvLog LogInfo "Close() called on a Decoder that hasn't been opened"]).
Proof.
  destruct (lifecycle_calls_compose closedDecoder noError noError) as (Hopened & _).
  destruct (lifecycle_calls_compose lockedDecoder noError noError) as (_ & Hfailed & _).
  split; [apply Hopened|apply Hfailed]; reflexivity.
Defined.

Lemma resolved_decoder_comes_from_registry_witness :
  (exists src s0 e0,
     Some song = Some src /\
     value (openSourceIfAutomatic true src noError) = (true, s0, e0) /\
     ((exists m,
         Some "audio/wavpack" = Some m /\
         selects true (fun info => mHandlesMIMEType info (Some m))
                 EvHandlesMIMEType [brokenWavpack; mp3] s0 e0
                 {| mInputSource := openSong; mIsOpen := true;
                    mImpl := codec "MP3" true true |} (Some (Some codecError))) \/
      (exists s1 e1 url x,
         ((Some "audio/wavpack" = None /\ s1 = s0 /\ e1 = e0) \/
          (exists m, Some "audio/wavpack" = Some m /\
                     value (tryMIMEType [brokenWavpack; mp3] true (Some m) s0 e0)
                     = (inr s1, e1))) /\
         InputSource_GetURL s1 = Some url /\
         CFURLCopyPathExtension url = Some x /\
         selects true (fun info => mHandlesFilesWithExtension info (Some x))
                 EvHandlesFilesWithExtension [brokenWavpack; mp3] s1 e1
                 {| mInputSource := openSong; mIsOpen := true;
                    mImpl := codec "MP3" true true |} (Some (Some codecError))))) /\
  (noError = noError /\
   exists src info,
     Some song = Some src /\ In info [mp3; wavpack] /\
     mCreateDecoder wavpack song = mCreateDecoder info src /\
     ((exists m, Some "audio/wavpack" = Some m /\ mHandlesMIMEType info (Some m) = true) \/
      (exists url x,
         InputSource_GetURL src = Some url /\
         CFURLCopyPathExtension url = Some x /\
         mHandlesFilesWithExtension info (Some x) = true))) /\
  fst (value (CreateDecoderForInputSource [] true (Some song) (Some "audio/mpeg") noError))
  = None.
Proof.
  split; [|split].
  - exact (proj1 (resolved_decoder_comes_from_registry [brokenWavpack; mp3] true (Some song)
                    (Some "audio/wavpack") noError)
                 {| mInputSource := openSong; mIsOpen := true;
                    mImpl := codec "MP3" true true |} (Some (Some codecError)) eq_refl).
  - exact (proj1 (proj2 (resolved_decoder_comes_from_registry [mp3; wavpack] false
                           (Some song) (Some "audio/wavpack") noError))
                 (mCreateDecoder wavpack song) noError eq_refl eq_refl).
  - exact (proj2 (proj2 (resolved_decoder_comes_from_registry [] true (Some song)
                           (Some "audio/mpeg") noError)) eq_refl).
Defined.

Lemma automatic_opening_returns_open_decoders_witness :
  IsOpen {| mInputSource := openSong; mIsOpen := true; mImpl := codec "MP3" true true |}
  = true.
Proof.
  apply (automatic_opening_returns_open_decoders [brokenWavpack; mp3] (Some song)
           (Some "audio/wavpack") noError (e := Some (Some codecError))).
  reflexivity.
Defined.

Lemma resolver_gives_up_when_source_fails_witness :
  CreateDecoderForInputSource [mp3; wavpack] true (Some lockedSong) (Some "audio/mpeg") noError
  = ((None, Some (Some ioError)), [EvSourceOpen]).
Proof.
  exact (resolver_gives_up_when_source_fails [mp3; wavpack] lockedSong (Some "audio/mpeg")
           noError (s := lockedSong) (e := Some (Some ioError)) eq_refl eq_refl).
Defined.

Lemma mime_query_predicts_resolution_witness :
  value (CreateDecoderForInputSource [mp3; wavpack] true (Some song) (Some "audio/flac") noError)
  = value (CreateDecoderForInputSource [mp3; wavpack] true (Some song) None noError) /\
  isSome (fst (value (CreateDecoderForInputSource [mp3; wavpack] false (Some bare)
                        (Some "Audio/MPEG") noError))) = true.
Proof.
  split.
  - apply (proj1 (mime_query_predicts_resolution [mp3; wavpack] true (Some song)
                    "audio/flac" noError)).
    reflexivity.
  - apply (proj2 (mime_query_predicts_resolution [mp3; wavpack] false (Some bare)
                    "Audio/MPEG" noError) eq_refl eq_refl bare eq_refl).
Defined.

Lemma extension_query_predicts_resolution_witness :
  value (CreateDecoderForInputSource [wavpack] true (Some song) None noError)
  = (None, noError) /\
  isSome (fst (value (CreateDecoderForInputSource [mp3; wavpack] false (Some song) None noError)))
  = value (HandlesFilesWithExtension [mp3; wavpack] (Some "mp3")).
Proof.
  assert (Eopened : value (openSourceIfAutomatic true song noError) = (true, openSong, noError))
    by reflexivity.
  assert (Eplain : value (openSourceIfAutomatic false song noError) = (true, song, noError))
    by reflexivity.
  assert (Hopened : InputSource_GetURL openSong = Some songURL) by reflexivity.
  assert (Hplain : InputSource_GetURL song = Some songURL) by reflexivity.
  assert (Hext : CFURLCopyPathExtension songURL = Some "mp3") by reflexivity.
  split.
  - apply (proj1 (extension_query_predicts_resolution [wavpack] true song noError
                    Eopened Hopened Hext)).
    reflexivity.
  - apply (proj2 (extension_query_predicts_resolution [mp3; wavpack] false song noError
                    Eplain Hplain Hext)).
    reflexivity.
Defined.

Lemma url_without_source_yields_null_witness :
  CreateDecoderForURL (sourceOps := offlineSourceOps) [mp3; wavpack] true songURL
    (Some "audio/mpeg") noError = ((None, Some (Some ioError)), []) /\
  CreateDecoderForURLRegion_3 (sourceOps := offlineSourceOps) [mp3; wavpack] true songURL
    100 50 2 noError = ((None, Some (Some ioError)), []).
Proof.
  destruct (url_without_source_yields_null (sourceOps := offlineSourceOps)
              [mp3; wavpack] true songURL (Some "audio/mpeg") noError
              (e := Some (Some ioError)) 100 50 2 eq_refl)
    as (Hurl & _ & _ & _ & Hregion).
  split; assumption.
Defined.

Lemma queries_agree_with_declared_lists_witness :
  value (HandlesFilesWithExtension [mp3; wavpack] (Some "WV")) =
  existsb (caseInsensitiveEqual "WV") (CreateSupportedFileExtensions [mp3; wavpack]) /\
  value (HandlesMIMEType [mp3; wavpack] (Some "WV")) =
  existsb (caseInsensitiveEqual "WV") (CreateSupportedMIMETypes [mp3; wavpack]).
Proof.
  apply queries_agree_with_declared_lists.
  intros info [<-|[<-|[]]]; split; reflexivity.
Defined.

Lemma supported_lists_follow_registration_witness :
  In "wv" (CreateSupportedFileExtensions [mp3; wavpack]).
Proof.
  apply (proj1 (supported_lists_follow_registration [mp3; wavpack] [mp3] [wavpack] "wv")).
  exists wavpack. split; [right; left; reflexivity|left; reflexivity].
Defined.

Lemma registry_answers_ignore_order_witness :
  value (HandlesMIMEType [mp3; wavpack] (Some "audio/wavpack")) =
  value (HandlesMIMEType [wavpack; mp3] (Some "audio/wavpack")).
Proof.
  apply (proj1 (registry_answers_ignore_order [mp3; wavpack] [wavpack; mp3]
                  (Some "audio/wavpack"))).
  apply perm_swap.
Defined.

Lemma MP3Metadata_handles_what_it_declares_witness :
  MP3Metadata.HandlesFilesWithExtension (Some "Mp3") = true /\
  MP3Metadata.HandlesMIMEType (Some "AUDIO/mpeg") = true.
Proof.
  destruct (MP3Metadata_handles_what_it_declares None "Mp3") as (_ & _ & Hext & _).
  destruct (MP3Metadata_handles_what_it_declares None "AUDIO/mpeg")
    as (_ & _ & _ & Hmime & _).
  split; [apply Hext|apply Hmime]; reflexivity.
Defined.

Lemma ReadMetadata_outcome_witness :
  fst (fst (MP3Metadata._ReadMetadata songMetadata noError)) = true /\
  snd (fst (MP3Metadata._ReadMetadata notesMetadata noError)) = notesMetadata.
Proof.
  split.
  - apply (proj1 (ReadMetadata_outcome songMetadata noError)).
    exists "/music/song.mp3". repeat split.
  - destruct (ReadMetadata_outcome notesMetadata noError) as (_ & _ & _ & Hfalse & _).
    apply (Hfalse eq_refl).
Defined.

Lemma WriteMetadata_outcome_witness :
  fst (fst (MP3Metadata._WriteMetadata songMetadata noError)) = true /\
  MP3Metadata.ID3v1Tag taggedFile = Some "" /\
  (forall file', snd (MP3Metadata._WriteMetadata songMetadata noError) = Some file' ->
                 MP3Metadata.ID3v1Tag file' = Some "" /\
                 isSome (MP3Metadata.ID3v2Tag file') = true).
Proof.
  destruct (WriteMetadata_outcome songMetadata noError) as (_ & Hok & _ & Htags).
  split; [|split; [reflexivity|]].
  - apply Hok. eexists. split; reflexivity.
  - intros file' Hsaved.
    destruct (Htags "/music/song.mp3" file' eq_refl Hsaved) as (Hv2 & _ & _ & _ & Hv1).
    split; [|exact Hv2]. apply (Hv1 ""); reflexivity.
Defined.
